(** * Job lifecycle orchestration of the gretel client

    A shallow embedding of the control flow in
    [gretel_client/evaluation/reports.py] (the completion poller and the
    report guard) and [gretel_client/cli/records.py] (run-mode validation,
    data and reference-data resolution, record-handler execution), with the
    properties of that control flow proved over the embedding.

    Python objects that are mutated in place live in an explicit store;
    calls to collaborators (the service, the container, the logger) are
    recorded as events, in the order the source performs them. *)

From stdpp Require Import base decidable option list strings gmap fin_maps.

(** Python truthiness of an [Optional[str]]: [None] and the empty string are
    falsy. *)
Definition truthy (v : option string) : bool :=
  match v with
  | None => false
  | Some s => negb (String.eqb s "")
  end.

(** ** gretel_client.projects.jobs *)
Module Jobs.

(** Modelled from the spec: [Status] and [END_STATES] are imported from
    gretel_client/projects/jobs.py, which is not among the sources.  The
    spec names the statuses CREATED/PENDING, ACTIVE/RUNNING, COMPLETED,
    ERROR, CANCELLED and LOST, and calls the last four the end states. *)
Inductive Status : Set :=
| CREATED | PENDING | ACTIVE | RUNNING
| COMPLETED | ERROR | CANCELLED | LOST.

#[global] Instance Status_eq_dec : EqDecision Status.
Proof. solve_decision. Defined.

(** Modelled from the spec: the end states of jobs.py (see [Status]). *)
Definition END_STATES : list Status := [COMPLETED; ERROR; CANCELLED; LOST].

(** [status in END_STATES] *)
Definition in_END_STATES (s : Status) : bool := bool_decide (s ∈ END_STATES).

(** What the poller reads of a job: its last known status.  Only
    [refresh()] changes it. *)
Record Job : Set := { status : Status }.

(** What one call of [job.refresh()] does: it raises, or it returns after
    storing the status the service reported. *)
Inductive refresh_outcome : Set :=
| RefreshFails
| RefreshOk (reported : Status).

End Jobs.

(** ** gretel_client.config *)
Module Config.

(** Modelled from the spec: [RunnerMode] is imported from
    gretel_client/config.py, which is not among the sources; the spec
    gives the enum as {CLOUD, LOCAL, MANUAL}. *)
Inductive RunnerMode : Set := CLOUD | LOCAL | MANUAL.

#[global] Instance RunnerMode_eq_dec : EqDecision RunnerMode.
Proof. solve_decision. Defined.

(** Modelled from the spec: [RunnerMode.X.value], the string the command
    line carries.  records.py itself spells two of them in its messages
    (runner "is set to local", "--runner manual"); the third follows the
    same pattern.  The proofs use only that the three are distinct. *)
Definition value (m : RunnerMode) : string :=
  match m with
  | CLOUD => "cloud"
  | LOCAL => "local"
  | MANUAL => "manual"
  end.

(** [RunnerMode(runner)]: the member with that value, [None] where Python
    raises ValueError. *)
Definition of_value (runner : string) : option RunnerMode :=
  if String.eqb runner (value CLOUD) then Some CLOUD
  else if String.eqb runner (value LOCAL) then Some LOCAL
  else if String.eqb runner (value MANUAL) then Some MANUAL
  else None.

End Config.

(** ** gretel_client.evaluation.reports *)
Module Reports.
Import Jobs Config.

Definition _model_run_exc_message : string :=
  "Please run the model to generate the report.".

(** The exceptions this module raises or lets through. *)
Inductive exn : Set :=
| ModelRunException (msg : string)
| AttributeError (attr : string)
| IndexError
| ContainerRunError.

(** Calls the poller makes on its collaborators. *)
Inductive poll_event : Set :=
| Sleep (seconds : nat)
| Refresh (succeeded : bool)
| LogDebug (attempts_remaining : nat).

(** How a run of the poller over a finite record of the service stands:
    [break] leaves the loop, a raise leaves it with an exception, and
    [AwaitingRefresh] is the loop waiting for a refresh the record does
    not contain. *)
Inductive completion : Set :=
| Returned
| Raised (e : exn)
| AwaitingRefresh.

Record awaited : Set := {
  outcome : completion;
  job_after : Job;
  refresh_attempts_after : nat;
  events : list poll_event;
  unread : list refresh_outcome
}.

(** The try/except of one iteration: the refresh, and what it does to the
    job and to [refresh_attempts]. *)
Definition try_refresh (o : refresh_outcome) (job : Job) (refresh_attempts : nat)
  : Job * nat * list poll_event :=
  match o with
  | RefreshOk s => ({| status := s |}, 0, [Refresh true])
  | RefreshFails =>
      let refresh_attempts := refresh_attempts + 1 in
      let attempts_remaining := 5 - refresh_attempts in
      (job, refresh_attempts, [Refresh false; LogDebug attempts_remaining])
  end.

(** The [while True] loop of [_await_completion], one iteration per entry
    of [service], the outcomes of the successive [job.refresh()] calls. *)
Fixpoint await_loop (service : list refresh_outcome) (job : Job)
    (refresh_attempts : nat) (trace : list poll_event) : awaited :=
  if 5 <=? refresh_attempts then
    {| outcome := Raised (ModelRunException "Lost contact with job");
       job_after := job; refresh_attempts_after := refresh_attempts;
       events := trace; unread := service |}
  else
    match service with
    | [] =>
        {| outcome := AwaitingRefresh;
           job_after := job; refresh_attempts_after := refresh_attempts;
           events := trace; unread := [] |}
    | o :: service' =>
        let '(job, refresh_attempts, evs) := try_refresh o job refresh_attempts in
        let trace := trace ++ Sleep 10 :: evs in
        if decide (status job = COMPLETED) then
          {| outcome := Returned;
             job_after := job; refresh_attempts_after := refresh_attempts;
             events := trace; unread := service' |}
        else if in_END_STATES (status job) then
          {| outcome := Raised (ModelRunException "Job finished unsuccessfully");
             job_after := job; refresh_attempts_after := refresh_attempts;
             events := trace; unread := service' |}
        else await_loop service' job refresh_attempts trace
    end.

Definition _await_completion (service : list refresh_outcome) (job : Job) : awaited :=
  await_loop service job 0 [].

Definition is_refresh (e : poll_event) : bool :=
  match e with Refresh _ => true | _ => false end.

Definition is_successful_refresh (e : poll_event) : bool :=
  match e with Refresh ok => ok | _ => false end.

(** The number of [job.refresh()] calls made. *)
Definition refresh_calls (r : awaited) : nat :=
  length (List.filter is_refresh (events r)).

(** The number of [job.refresh()] calls that returned. *)
Definition successful_refreshes (r : awaited) : nat :=
  length (List.filter is_successful_refresh (events r)).

(** [Dict[str, Any]], the parsed report. *)
Definition ReportDictType : Set := list (string * string).

(** The attributes of a report object.  [_report_dict] and [_report_html]
    are only annotated in the class body: until [_run_cloud] or
    [_run_local] assigns them the attribute does not exist ([None] here).
    [_model_run] has the class default [False]. *)
Record BaseReport : Set := {
  project : option string;
  data_source : string;
  ref_data : string;
  output_dir : string;
  runner_mode : RunnerMode;
  _report_dict : option ReportDictType;
  _report_html : option string;
  _model_run : bool
}.

(** [BaseReport.__init__]; [cwd] is what [os.getcwd()] returns. *)
Definition __init__ (cwd : string) (project : option string)
    (data_source ref_data : string) (output_dir : option string)
    (runner_mode : RunnerMode) : BaseReport :=
  {| project := project;
     data_source := data_source;
     ref_data := ref_data;
     output_dir := if truthy output_dir then default cwd output_dir else cwd;
     runner_mode := runner_mode;
     _report_dict := None;
     _report_html := None;
     _model_run := false |}.

(** What the collaborators of [run()] do when called: the status of the
    job [submit_cloud()] returns and the refreshes that follow, the two
    report artifacts, whether [submit_docker_local] returns or raises, and
    the two files the container leaves behind. *)
Record world : Set := {
  submitted_status : Status;
  service : list refresh_outcome;
  report_json_artifact : ReportDictType;
  report_artifact : string;
  docker_ok : bool;
  report_json_gz : list ReportDictType;
  report_html_gz : string
}.

Inductive run_event : Set :=
| TmpProjectEnter
| TmpProjectExit
| CreateModelObj (data_source ref_data : string)
| SubmitCloud
| Poll (e : poll_event)
| GetArtifactLink (name : string)
| SubmitDockerLocal (output_dir : string)
| GzipOpen (path : string).

(** A method call on the report: the object afterwards, how the call
    ended, and the calls it made. *)
Definition call : Set := BaseReport * completion * list run_event.

Definition set_report_dict (self : BaseReport) (d : ReportDictType) : BaseReport :=
  {| project := project self; data_source := data_source self;
     ref_data := ref_data self; output_dir := output_dir self;
     runner_mode := runner_mode self;
     _report_dict := Some d; _report_html := _report_html self;
     _model_run := _model_run self |}.

Definition set_report_html (self : BaseReport) (h : string) : BaseReport :=
  {| project := project self; data_source := data_source self;
     ref_data := ref_data self; output_dir := output_dir self;
     runner_mode := runner_mode self;
     _report_dict := _report_dict self; _report_html := Some h;
     _model_run := _model_run self |}.

Definition set_model_run (self : BaseReport) (b : bool) : BaseReport :=
  {| project := project self; data_source := data_source self;
     ref_data := ref_data self; output_dir := output_dir self;
     runner_mode := runner_mode self;
     _report_dict := _report_dict self; _report_html := _report_html self;
     _model_run := b |}.

Definition _run_cloud (w : world) (self : BaseReport) : call :=
  let job := {| status := submitted_status w |} in
  let r := _await_completion (service w) job in
  let trace := SubmitCloud :: map Poll (events r) in
  match outcome r with
  | Returned =>
      let self := set_report_dict self (report_json_artifact w) in
      let self := set_report_html self (report_artifact w) in
      (self, Returned,
       trace ++ [GetArtifactLink "report_json"; GetArtifactLink "report"])
  | stopped => (self, stopped, trace)
  end.

Definition _run_local (w : world) (self : BaseReport) : call :=
  let trace := [SubmitDockerLocal (output_dir self)] in
  if docker_ok w then
    let trace := trace ++ [GzipOpen (output_dir self +:+ "/report_json.json.gz")] in
    match report_json_gz w with
    | [] => (self, Raised IndexError, trace)
    | line0 :: _ =>
        let self := set_report_dict self line0 in
        let self := set_report_html self (report_html_gz w) in
        (self, Returned,
         trace ++ [GzipOpen (output_dir self +:+ "/report.html.gz")])
    end
  else (self, Raised ContainerRunError, trace).

Definition _run_model (w : world) (self : BaseReport) : call :=
  if decide (runner_mode self = CLOUD) then _run_cloud w self
  else if decide (runner_mode self = LOCAL) then _run_local w self
  else (self, Returned, []).

Definition _run_in_project (w : world) (self : BaseReport) : call :=
  let '(self', c, trace) := _run_model w self in
  (self', c, CreateModelObj (data_source self) (ref_data self) :: trace).

(** [tmp_project()] is left, on a return as on a raise, once the body has
    ended; while the poller still waits the block has not been left. *)
Definition _run (w : world) (self : BaseReport) : call :=
  let '(self, c, trace) :=
    match project self with
    | None =>
        let '(self, c, trace) := _run_in_project w self in
        (self, c,
         TmpProjectEnter :: trace ++
           match c with
           | AwaitingRefresh => []
           | _ => [TmpProjectExit]
           end)
    | Some _ => _run_in_project w self
    end in
  match c with
  | Returned => (set_model_run self true, Returned, trace)
  | stopped => (self, stopped, trace)
  end.

Definition run (w : world) (self : BaseReport) : call := _run w self.

Definition _check_model_run (self : BaseReport) : exn + unit :=
  if negb (_model_run self) then inl (ModelRunException _model_run_exc_message)
  else inr tt.

(** Reading an attribute that may not have been assigned. *)
Definition getattr {A : Set} (name : string) (v : option A) : exn + A :=
  match v with
  | Some a => inr a
  | None => inl (AttributeError name)
  end.

Definition as_dict (self : BaseReport) : exn + ReportDictType :=
  match _check_model_run self with
  | inl e => inl e
  | inr _ => getattr "_report_dict" (_report_dict self)
  end.

Definition as_html (self : BaseReport) : exn + string :=
  match _check_model_run self with
  | inl e => inl e
  | inr _ => getattr "_report_html" (_report_html self)
  end.

(** The calls of [run()] that start a job: a cloud submission or a local
    container. *)
Definition starts_job (e : run_event) : bool :=
  match e with
  | SubmitCloud | SubmitDockerLocal _ => true
  | _ => false
  end.

(** *** Scenarios the statements are about *)

(** The outcomes of the refreshes in the reset scenario: two failures, a
    successful refresh reporting RUNNING, five more failures. *)
Definition reset_scenario : list refresh_outcome :=
  [RefreshFails; RefreshFails; RefreshOk RUNNING;
   RefreshFails; RefreshFails; RefreshFails; RefreshFails; RefreshFails].

Definition lost_contact : completion :=
  Raised (ModelRunException "Lost contact with job").

(** A service on which a cloud run completes at the second refresh, and a
    container that runs and leaves a one-line report. *)
Definition cooperative_world : world :=
  {| submitted_status := CREATED;
     service := [RefreshOk ACTIVE; RefreshOk COMPLETED];
     report_json_artifact := [("score", "97")];
     report_artifact := "<html></html>";
     docker_ok := true;
     report_json_gz := [[("score", "97")]];
     report_html_gz := "<html></html>" |}.

(** *** Measures and services the further statements are about *)

Definition finished_unsuccessfully : completion :=
  Raised (ModelRunException "Job finished unsuccessfully").

(** The [job.refresh()] calls among some calls of the poller. *)
Definition count_refreshes (evs : list poll_event) : nat :=
  length (List.filter is_refresh evs).

(** The seconds of [time.sleep] among some calls of the poller. *)
Definition seconds (evs : list poll_event) : nat :=
  foldr (λ e total, match e with Sleep n => n + total | _ => total end) 0 evs.

(** The seconds the poller spent in [time.sleep]. *)
Definition seconds_slept (r : awaited) : nat := seconds (events r).

(** A service that answers after some failed refreshes each time: for
    every pair, that many refreshes that fail and then one that reports the
    status. *)
Fixpoint answers (blocks : list (nat * Status)) : list refresh_outcome :=
  match blocks with
  | [] => []
  | (failures, s) :: blocks =>
      repeat RefreshFails failures ++ RefreshOk s :: answers blocks
  end.

(** How the poller ends on a successful refresh that reports an end
    state. *)
Definition ending (s : Status) : completion :=
  if decide (s = COMPLETED) then Returned else finished_unsuccessfully.

Definition is_cloud_call (e : run_event) : bool :=
  match e with
  | SubmitCloud | Poll _ | GetArtifactLink _ => true
  | _ => false
  end.

Definition is_local_call (e : run_event) : bool :=
  match e with
  | SubmitDockerLocal _ | GzipOpen _ => true
  | _ => false
  end.

Definition is_tmp_project_call (e : run_event) : bool :=
  match e with
  | TmpProjectEnter | TmpProjectExit => true
  | _ => false
  end.

(** The calls of [_run_in_project]: the model object is created with the
    report's data source and reference data, then the model is run. *)
Definition in_project (self : BaseReport) (model_calls : list run_event)
  : list run_event :=
  CreateModelObj (data_source self) (ref_data self) :: model_calls.

End Reports.

(** ** gretel_client.cli.records *)
Module Records.
Import Jobs Config.

(** The module constant [LOCAL], the sentinel sent in place of local
    paths; here the plain name is the enum member's. *)
Definition LOCAL_ : string := "__local__".

(** Exceptions that leave the functions of this module. *)
Inductive exn : Set :=
| BadOptionUsage (option_name message : string)
| ValueError
| DataSourceError (path : string)
| SystemExit (code : nat)
| DanglingReference.

(** [sc.model.is_cloud_model], [sc.model.model_id], [sc.project.name] and
    [sc.debug]. *)
Record SessionContext : Set := {
  is_cloud_model : bool;
  model_id : string;
  project_name : string;
  debug : bool
}.

(** Modelled from the spec: [RefData] is imported from
    gretel_client/cli/utils/parser_utils.py, which is not among the
    sources.  The spec has it as a named mapping of reference-data keys to
    data-source locators, with [is_empty] derived from the mapping. *)
Record RefData : Type := { ref_dict : gmap string string }.

Definition is_empty (rd : RefData) : bool := bool_decide (ref_dict rd = ∅).

(** References to [RefData] objects; two names for one object share a
    reference. *)
Definition loc : Set := positive.

(** Values of the [params] dictionary sent with a submission. *)
Inductive param_value : Set :=
| PInt (n : Z)
| PStr (s : string)
| PNone.

(** What is logged with [sc.log.error]. *)
Inductive error_record : Set :=
| Text (s : string)
| JobErrors (errors : list string)
| StatusIs (status : Status) (rest : string).

(** Calls on the collaborators, in the order the source makes them. *)
Inductive event : Type :=
| LogInfo (msg : string)
| LogDebug (msg : string)
| LogError (r : error_record)
| UploadArtifact (path : string)
| CreateRecordHandlerObj
| Submit (params : option (gmap string param_value)) (action : option string)
    (runner_mode : RunnerMode) (data_source : option string)
    (ref_data : gmap string string)
| RegisterCleanupCancel
| Print (with_worker_key : bool)
| ContainerRunFromJob
| EnableDebug
| ConfigureOutputDir (output : string)
| ConfigureInputData (in_data : string)
| ConfigureModel (model_path : string)
| ConfigureRefData (ref_data : gmap string string)
| Start
| RegisterCleanupShutdown
| PollAndPrint (runner : string) (with_callback : bool)
| DownloadArtifacts (output : string)
| ExtractOutputDir (output : string)
| Exit (code : nat).

(** The calls that materialize record artifacts. *)
Definition is_materialization (e : event) : bool :=
  match e with
  | DownloadArtifacts _ | ExtractOutputDir _ => true
  | _ => false
  end.

(** What the service does when called: [upload_artifact] returns the
    remote locator or raises ([None]); [polled_status] is the status the
    record handler has when [poll_and_print] returns; the rest are the
    attributes read from the record handler afterwards. *)
Record service : Type := {
  upload_artifact : string → option string;
  polled_status : Status;
  errors : list string;
  billing_details : string;
  record_id : string
}.

(** The objects and the calls made so far. *)
Record state : Type := {
  store : gmap loc RefData;
  trace : list event
}.

(** Computations that read and write the state and may raise. *)
Definition M (A : Type) : Type := state → (exn + A) * state.

Definition ret {A} (a : A) : M A := λ st, (inr a, st).

Definition bind {A B} (m : M A) (k : A → M B) : M B :=
  λ st, match m st with
        | (inr a, st') => k a st'
        | (inl e, st') => (inl e, st')
        end.

Definition raise {A} (e : exn) : M A := λ st, (inl e, st).

Definition emit (e : event) : M unit :=
  λ st, (inr tt, {| store := store st; trace := trace st ++ [e] |}).

Definition when (b : bool) (m : M unit) : M unit := if b then m else ret tt.

Declare Scope py_scope.
Delimit Scope py_scope with py.
Notation "x <- m ;; k" := (bind m (λ x, k))
  (at level 100, m at next level, right associativity) : py_scope.
Notation "m ;; k" := (bind m (λ _, k))
  (at level 100, right associativity) : py_scope.
Local Open Scope py_scope.

(** A new object. *)
Definition alloc (rd : RefData) : M loc :=
  λ st, let l := fresh (dom (store st)) in
        (inr l, {| store := <[l := rd]> (store st); trace := trace st |}).

Definition load (l : loc) : M RefData :=
  λ st, match store st !! l with
        | Some rd => (inr rd, st)
        | None => (inl DanglingReference, st)
        end.

(** [ref_data.ref_dict[key] = v] on the object at [l]. *)
Definition set_item (l : loc) (key v : string) : M unit :=
  rd <- load l ;;
  λ st, (inr tt, {| store := <[l := {| ref_dict := <[key := v]> (ref_dict rd) |}]> (store st);
                    trace := trace st |}).

(** [for x in xs: body x] *)
Fixpoint for_each {A} (xs : list A) (body : A → M unit) : M unit :=
  match xs with
  | [] => ret tt
  | x :: xs => body x ;; for_each xs body
  end.

(** [copy.deepcopy] of a [RefData]: a new object with an equal mapping. *)
Definition deepcopy (l : loc) : M loc := rd <- load l ;; alloc rd.

(** Modelled from the spec: [ref_data_factory] is imported from
    parser_utils.py, which is not among the sources; given a mapping it
    builds a new [RefData] over it, given nothing an empty one. *)
Definition ref_data_factory (d : gmap string string) : M loc :=
  alloc {| ref_dict := d |}.

(** [sc.project.upload_artifact(path)] *)
Definition upload (sv : service) (path : string) : M string :=
  emit (UploadArtifact path) ;;
  match upload_artifact sv path with
  | Some uri => ret uri
  | None => raise (DataSourceError path)
  end.

Definition _validate_params (sc : SessionContext) (runner : string)
    (output model_path in_data : option string) : exn + unit :=
  if String.eqb runner (value CLOUD) && truthy model_path then
    inl (BadOptionUsage "--model-path"
           "A model path may not be specified for cloud models.")
  else if negb (is_cloud_model sc) && String.eqb runner (value LOCAL)
          && negb (truthy model_path) then
    inl (BadOptionUsage "--model-path"
           "--model-path is required when running a local model.")
  else if String.eqb runner (value LOCAL) && negb (truthy output) then
    inl (BadOptionUsage "--output"
           "--runner is set to local, but no --output flag is set. Please set an output path.")
  else if String.eqb runner (value LOCAL) && is_cloud_model sc
          && truthy model_path then
    inl (BadOptionUsage "--model-path"
           "Cannot specify the local model path for cloud models.")
  else if String.eqb runner (value MANUAL)
          && (truthy output || truthy model_path) then
    inl (BadOptionUsage "--runner"
           "--runner manual cannot be used together with any of --output, --model-path.")
  else inr tt.

(** The source compares with [is]; the runner strings are the enum's own
    values, for which identity and equality agree. *)
Definition _check_model_and_runner (sc : SessionContext) (runner : string) : M string :=
  if negb (is_cloud_model sc) && String.eqb runner (value CLOUD) then
    emit (LogInfo ("The model " +:+ model_id sc +:+ " is configured for local runs, "
                   +:+ "but runner_mode is " +:+ runner +:+ ".")) ;;
    emit (LogInfo "Setting runner_mode to local and running the model.") ;;
    ret (value LOCAL)
  else ret runner.

Definition _configure_data_source (sc : SessionContext) (sv : service)
    (in_data : option string) (runner : string) : M (option string) :=
  match in_data with
  | None => ret None
  | Some in_data =>
      if String.eqb runner (value MANUAL) then ret (Some in_data)
      else if String.eqb runner (value CLOUD) then
        emit (LogInfo ("Uploading input artifact " +:+ in_data)) ;;
        data_source <- upload sv in_data ;;
        ret (Some data_source)
      else ret (Some LOCAL_)
  end.

(** The cloud branch's loop, filling the local [ref_dict]. *)
Fixpoint upload_items (sv : service) (items : list (string * string))
    (ref_dict : gmap string string) : M (gmap string string) :=
  match items with
  | [] => ret ref_dict
  | (key, data_source) :: items =>
      data_source <- upload sv data_source ;;
      upload_items sv items (<[key := data_source]> ref_dict)
  end.

Definition _configure_ref_data (sc : SessionContext) (sv : service)
    (ref_data : loc) (runner : string) : M loc :=
  rd <- load ref_data ;;
  if negb (is_empty rd) && String.eqb runner (value MANUAL) then ret ref_data
  else if negb (is_empty rd) && String.eqb runner (value CLOUD) then
    emit (LogInfo "Uploading ref data...") ;;
    ref_dict <- upload_items sv (map_to_list (ref_dict rd)) ∅ ;;
    ref_data_factory ref_dict
  else
    for_each (map_to_list (ref_dict rd))
             (λ '(key, data_source), set_item ref_data key LOCAL_) ;;
    ret ref_data.

(** A raise or a normal return of a function without effects. *)
Definition lift {A} (r : exn + A) : M A :=
  match r with
  | inl e => raise e
  | inr a => ret a
  end.

(** [create_and_run_record_handler] up to the printing of the record
    handler: the object is created and submitted with the service-facing
    [data_source] and [config_ref_data]. *)
Definition submit_record_handler (sc : SessionContext) (sv : service)
    (params : option (gmap string param_value)) (action : option string)
    (runner : string) (data_source : option string)
    (config_ref_data : option loc) : M unit :=
  emit (LogInfo ("Creating record handler for model " +:+ model_id sc +:+ ".")) ;;
  emit CreateRecordHandlerObj ;;
  config_ref_data <-
    match config_ref_data with
    | None => ref_data_factory ∅
    | Some l => ret l
    end ;;
  runner_mode <-
    match of_value runner with
    | Some m => ret m
    | None => raise ValueError
    end ;;
  config <- load config_ref_data ;;
  emit (Submit params action runner_mode data_source (ref_dict config)) ;;
  emit RegisterCleanupCancel ;;
  emit (LogInfo ("Record handler created " +:+ record_id sv +:+ ".")) ;;
  emit (Print (String.eqb runner (value MANUAL))).

(** The statements from [run = None] to the registration of the graceful
    shutdown; the result tells whether [run] is set. *)
Definition start_container_run (sc : SessionContext) (runner : string)
    (output in_data model_path : option string) (ref_data : option loc) : M bool :=
  if String.eqb runner (value LOCAL) then
    emit ContainerRunFromJob ;;
    when (debug sc)
      (emit (LogDebug "Enabling debug for the container run.") ;;
       emit EnableDebug) ;;
    when (truthy output) (emit (ConfigureOutputDir (default "" output))) ;;
    when (truthy in_data) (emit (ConfigureInputData (default "" in_data))) ;;
    when (truthy model_path) (emit (ConfigureModel (default "" model_path))) ;;
    match ref_data with
    | Some l => rd <- load l ;; emit (ConfigureRefData (ref_dict rd))
    | None => ret tt
    end ;;
    emit Start ;;
    emit RegisterCleanupShutdown ;;
    ret true
  else ret false.

(** The statements after [poll_and_print]: the artifacts, then the branch
    on the status of the record handler. *)
Definition materialize_and_report (sc : SessionContext) (sv : service)
    (runner : string) (output : option string) (run : bool) : M unit :=
  when (truthy output && String.eqb runner (value CLOUD))
    (emit (DownloadArtifacts (default "" output))) ;;
  when (truthy output && run)
    (emit (LogInfo "Extracting record artifacts from the container.") ;;
     emit (ExtractOutputDir (default "" output))) ;;
  if decide (polled_status sv = COMPLETED) then
    emit (LogInfo
            ("For a more detailed view, you can download record artifacts using the CLI command "
             +:+ "gretel records get --project " +:+ project_name sc
             +:+ " --model-id " +:+ model_id sc
             +:+ " --record-handler-id " +:+ record_id sv +:+ " --output .")) ;;
    emit (LogInfo ("Billing estimate" +:+ billing_details sv +:+ ".")) ;;
    emit (LogInfo "Done.")
  else
    emit (LogError (Text "The record command failed with the following error.")) ;;
    emit (LogError (JobErrors (errors sv))) ;;
    emit (LogError (StatusIs (polled_status sv)
                      ". Please scroll back through the logs for more details.")) ;;
    emit (Exit 1) ;;
    raise (SystemExit 1).

(** The function, its body in the three parts above with the polling
    between the second and the third.  [ref_data] and [config_ref_data]
    are references ([None] for the Python [None]); a [RefData] object is
    truthy. *)
Definition create_and_run_record_handler (sc : SessionContext) (sv : service)
    (params : option (gmap string param_value)) (action : option string)
    (runner : string) (output in_data model_path data_source : option string)
    (ref_data config_ref_data : option loc) : M unit :=
  submit_record_handler sc sv params action runner data_source config_ref_data ;;
  run <- start_container_run sc runner output in_data model_path ref_data ;;
  emit (PollAndPrint runner run) ;;
  materialize_and_report sc sv runner output run.

(** The body shared by [generate], [transform] and [classify]. *)
Definition records_command (action : string)
    (params : option (gmap string param_value))
    (sc : SessionContext) (sv : service) (runner : string)
    (output in_data model_path : option string) : M unit :=
  runner <- _check_model_and_runner sc runner ;;
  lift (_validate_params sc runner output model_path in_data) ;;
  data_source <- _configure_data_source sc sv in_data runner ;;
  create_and_run_record_handler sc sv params (Some action) runner output
    in_data model_path data_source None None.

Definition generate (sc : SessionContext) (sv : service) (runner : string)
    (output in_data model_path : option string)
    (num_records : Z) (max_invalid : option Z) : M unit :=
  records_command "generate"
    (Some (<["max_invalid" := from_option PInt PNone max_invalid]>
             {["num_records" := PInt num_records]}))
    sc sv runner output in_data model_path.

Definition transform : SessionContext → service → string →
    option string → option string → option string → M unit :=
  records_command "transform" None.

Definition classify : SessionContext → service → string →
    option string → option string → option string → M unit :=
  records_command "classify" None.

(** The part of [run] that resolves the reference data: [ref_data] is what
    the command line gave, [config_ref_data] what goes to the service. *)
Definition run_ref_data (sc : SessionContext) (sv : service)
    (ref_data : loc) (runner : string) : M loc :=
  copy <- deepcopy ref_data ;;
  _configure_ref_data sc sv copy runner.

(** The generic run command; [ref_data] is the mapping the command line's
    reference-data arguments denote. *)
Definition run (sc : SessionContext) (sv : service) (runner : string)
    (output in_data model_path : option string)
    (ref_data : gmap string string) (action : option string)
    (param : list (string * string)) : M unit :=
  runner <- _check_model_and_runner sc runner ;;
  lift (_validate_params sc runner output model_path None) ;;
  data_source <-
    (if truthy in_data then _configure_data_source sc sv in_data runner
     else ret None) ;;
  ref_data <- ref_data_factory ref_data ;;
  config_ref_data <- run_ref_data sc sv ref_data runner ;;
  let extra_params :=
    match param with
    | [] => None
    | _ => Some (foldl (λ d '(key, v), <[key := PStr v]> d) ∅ param)
    end in
  create_and_run_record_handler sc sv extra_params action runner output
    in_data model_path data_source (Some ref_data) (Some config_ref_data).

(** Running a command from nothing: no objects, no calls made. *)
Definition initial : state := {| store := ∅; trace := [] |}.

(** *** Scenarios and call sequences the statements are about *)

(** A model that only runs locally. *)
Definition local_only_model : SessionContext :=
  {| is_cloud_model := false; model_id := "6f3a"; project_name := "demo";
     debug := false |}.

(** A model that runs in the cloud. *)
Definition cloud_model : SessionContext :=
  {| is_cloud_model := true; model_id := "6f3a"; project_name := "demo";
     debug := false |}.

(** A service whose uploads succeed and whose job ends in ERROR. *)
Definition failing_job : service :=
  {| upload_artifact := λ path, Some ("gretel_" +:+ path);
     polled_status := ERROR;
     errors := ["out of memory"];
     billing_details := "{}";
     record_id := "62b1" |}.

Definition output_error : exn :=
  BadOptionUsage "--output"
    "--runner is set to local, but no --output flag is set. Please set an output path.".

(** Two reference files as the command line names them. *)
Definition two_local_files : gmap string string :=
  {[ "holdout" := "/data/holdout.csv"; "train" := "/data/train.csv" ]}.

Definition one_object : state :=
  {| store := {[ 1%positive := {| ref_dict := two_local_files |} ]}; trace := [] |}.

(** The mapping after the loop [ref_dict[key] = LOCAL] over [items]. *)
Definition overwritten (d : gmap string string) (items : list (string * string))
  : gmap string string :=
  foldl (λ d '(key, _), <[key := LOCAL_]> d) d items.

(** The mapping held by the object a reference names. *)
Definition mapping_of (st : state) (r : option loc) : option (gmap string string) :=
  l ← r; ref_dict <$> store st !! l.

(** The calls up to the submission and its printing. *)
Definition submission (sc : SessionContext) (sv : service)
    (params : option (gmap string param_value)) (action : option string)
    (m : RunnerMode) (data_source : option string)
    (config : gmap string string) : list event :=
  [LogInfo ("Creating record handler for model " +:+ model_id sc +:+ ".");
   CreateRecordHandlerObj;
   Submit params action m data_source config;
   RegisterCleanupCancel;
   LogInfo ("Record handler created " +:+ record_id sv +:+ ".");
   Print (bool_decide (m = MANUAL))].

(** The calls that set up and start the local container. *)
Definition container_start (sc : SessionContext) (m : RunnerMode)
    (output in_data model_path : option string)
    (ref : option (gmap string string)) : list event :=
  if bool_decide (m = LOCAL) then
    [ContainerRunFromJob]
    ++ (if debug sc
        then [LogDebug "Enabling debug for the container run."; EnableDebug]
        else [])
    ++ (if truthy output then [ConfigureOutputDir (default "" output)] else [])
    ++ (if truthy in_data then [ConfigureInputData (default "" in_data)] else [])
    ++ (if truthy model_path then [ConfigureModel (default "" model_path)] else [])
    ++ from_option (λ d, [ConfigureRefData d]) [] ref
    ++ [Start; RegisterCleanupShutdown]
  else [].

(** The calls that fetch the artifacts once polling is over; the status
    of the job plays no part in them. *)
Definition materialized (m : RunnerMode) (output : option string) : list event :=
  (if truthy output && bool_decide (m = CLOUD)
   then [DownloadArtifacts (default "" output)] else [])
  ++ (if truthy output && bool_decide (m = LOCAL)
      then [LogInfo "Extracting record artifacts from the container.";
            ExtractOutputDir (default "" output)]
      else []).

(** How a run that completed is reported. *)
Definition success_report (sc : SessionContext) (sv : service) : list event :=
  [LogInfo
     ("For a more detailed view, you can download record artifacts using the CLI command "
      +:+ "gretel records get --project " +:+ project_name sc
      +:+ " --model-id " +:+ model_id sc
      +:+ " --record-handler-id " +:+ record_id sv +:+ " --output .");
   LogInfo ("Billing estimate" +:+ billing_details sv +:+ ".");
   LogInfo "Done."].

(** How a run that did not complete is reported. *)
Definition failure_report (sv : service) : list event :=
  [LogError (Text "The record command failed with the following error.");
   LogError (JobErrors (errors sv));
   LogError (StatusIs (polled_status sv)
               ". Please scroll back through the logs for more details.");
   Exit 1].

(** A service whose uploads succeed and whose job completes. *)
Definition completing_job : service :=
  {| upload_artifact := λ path, Some ("gretel_" +:+ path);
     polled_status := COMPLETED;
     errors := [];
     billing_details := "{}";
     record_id := "62b1" |}.

(** A service that is out of reach for uploads. *)
Definition unreachable_storage : service :=
  {| upload_artifact := λ _, None;
     polled_status := COMPLETED;
     errors := [];
     billing_details := "{}";
     record_id := "62b1" |}.

Definition is_exit (e : event) : bool :=
  match e with Exit _ => true | _ => false end.

(** The calls from the submission to the report, for a runner of the
    enum. *)
Definition calls_of_run (sc : SessionContext) (sv : service)
    (params : option (gmap string param_value)) (action : option string)
    (m : RunnerMode) (output in_data model_path data_source : option string)
    (ref config : option (gmap string string)) : list event :=
  submission sc sv params action m data_source (default ∅ config)
  ++ container_start sc m output in_data model_path ref
  ++ PollAndPrint (value m) (bool_decide (m = LOCAL))
     :: materialized m output
  ++ (if decide (polled_status sv = COMPLETED)
      then success_report sc sv else failure_report sv).

(** The [extra_params] of the generic run command: [None] without
    [--param], else the dictionary built from the pairs in order. *)
Definition extra_params_of (param : list (string * string))
  : option (gmap string param_value) :=
  match param with
  | [] => None
  | _ => Some (foldl (λ d '(key, v), <[key := PStr v]> d) ∅ param)
  end.

(** *** Calls and tables the further statements are about *)

Definition is_upload (e : event) : bool :=
  match e with UploadArtifact _ => true | _ => false end.


(** The calls that create or submit the record handler. *)
Definition is_creation (e : event) : bool :=
  match e with
  | CreateRecordHandlerObj | Submit _ _ _ _ _ => true
  | _ => false
  end.

(** The flag a rejected combination is reported under, by runner. *)
Definition reported_flag (sc : SessionContext) (m : RunnerMode)
    (output model_path : option string) : string :=
  match m with
  | CLOUD => "--model-path"
  | MANUAL => "--runner"
  | LOCAL =>
      if negb (truthy output) && (is_cloud_model sc || truthy model_path)
      then "--output" else "--model-path"
  end.

(** The two lines logged when a cloud request is turned into a local
    run. *)
Definition override_log (sc : SessionContext) : list event :=
  [LogInfo ("The model " +:+ model_id sc +:+ " is configured for local runs, "
            +:+ "but runner_mode is " +:+ value CLOUD +:+ ".");
   LogInfo "Setting runner_mode to local and running the model."].

Definition logged (st : state) (evs : list event) : state :=
  {| store := store st; trace := trace st ++ evs |}.

End Records.

(** ** gretel_client.rest.api.jobs_api *)
Module JobsApi.

(** The values keyword arguments take here. *)
Inductive pyvalue : Set :=
| VNone
| VBool (b : bool)
| VNum (n : Z)
| VStr (s : string)
| VPair (connect read : Z).

(** [kwargs[key] = kwargs.get(key, dflt)] *)
Definition keep_or_default (key : string) (dflt : pyvalue)
    (kwargs : gmap string pyvalue) : gmap string pyvalue :=
  <[key := default dflt (kwargs !! key)]> kwargs.

(** [JobsApi.__receive_one]: the keyword arguments it passes on to
    [call_with_http_info]. *)
Definition __receive_one (kwargs : gmap string pyvalue) : gmap string pyvalue :=
  let kwargs := keep_or_default "async_req" (VBool false) kwargs in
  let kwargs := keep_or_default "_return_http_data_only" (VBool true) kwargs in
  let kwargs := keep_or_default "_preload_content" (VBool true) kwargs in
  let kwargs := keep_or_default "_request_timeout" VNone kwargs in
  let kwargs := keep_or_default "_check_input_type" (VBool true) kwargs in
  let kwargs := keep_or_default "_check_return_type" (VBool true) kwargs in
  let kwargs := keep_or_default "_host_index" VNone kwargs in
  kwargs.

(** The seven defaults of [__receive_one], as one mapping. *)
Definition receive_one_defaults : gmap string pyvalue :=
  {[ "async_req" := VBool false ]} ∪
  ({[ "_return_http_data_only" := VBool true ]} ∪
   ({[ "_preload_content" := VBool true ]} ∪
    ({[ "_request_timeout" := VNone ]} ∪
     ({[ "_check_input_type" := VBool true ]} ∪
      ({[ "_check_return_type" := VBool true ]} ∪
       {[ "_host_index" := VNone ]}))))).

End JobsApi.

(** ** gretel_client.projects.exceptions *)
Module Exceptions.

(** What the exceptions read of a job: [job_type], [id] and
    [project.project_id]. *)
Record Job : Set := {
  job_type : string;
  id : option string;
  project_id : string
}.

(** How an f-string shows an optional string. *)
Definition shown (v : option string) : string := default "None" v.

(** [GretelResourceNotFound.context] *)
Definition GretelResourceNotFound_context : gmap string (option string) := ∅.

(** [GretelJobNotFound.__str__] *)
Definition GretelJobNotFound_str (job : Job) : string :=
  "The " +:+ job_type job +:+ " '" +:+ shown (id job) +:+ "' could not be found".

(** [GretelJobNotFound.context]: a dict display, its entries stored from
    left to right. *)
Definition GretelJobNotFound_context (job : Job) : gmap string (option string) :=
  <["project_id" := Some (project_id job)]>
    (<[job_type job +:+ "_id" := id job]> ∅).

End Exceptions.

(** * Properties of the completion poller and the report guard *)
Section ReportsProperties.
Import Jobs Config Reports.

Lemma non_terminal_cases (s : Status) :
  in_END_STATES s = false → s = CREATED ∨ s = PENDING ∨ s = ACTIVE ∨ s = RUNNING.
Proof. destruct s; cbv; intros H; auto; discriminate H. Qed.

Ltac by_status s H :=
  destruct (non_terminal_cases s H) as [-> | [-> | [-> | ->]]].

(** The guard at the top of the loop fires without another refresh. *)
Lemma await_loop_budget_spent service job n trace :
  5 ≤ n →
  await_loop service job n trace =
    {| outcome := lost_contact; job_after := job;
       refresh_attempts_after := n; events := trace; unread := service |}.
Proof.
  intros Hn.
  do 5 (destruct n as [| n]; [lia |]).
  destruct service; reflexivity.
Qed.

(** One iteration whose refresh fails, on a job that is not finished. *)
Lemma await_loop_failed_refresh service s n trace :
  n < 5 → in_END_STATES s = false →
  await_loop (RefreshFails :: service) {| status := s |} n trace =
    await_loop service {| status := s |} (n + 1)
      (trace ++ [Sleep 10; Refresh false; LogDebug (5 - (n + 1))]).
Proof.
  intros Hn Hs.
  do 5 (destruct n as [| n]; [by_status s Hs; reflexivity |]).
  lia.
Qed.

(** C1, as stated in the claim, fails: on the reset scenario the poller
    makes eight calls of [job.refresh()], so it is not the case that
    lost-contact is raised with seven refresh attempts made. *)
Lemma reset_scenario_not_seven_attempts :
  let r := _await_completion reset_scenario {| status := RUNNING |} in
  ¬ (outcome r = lost_contact ∧ refresh_calls r = 7).
Proof. vm_compute. intros [_ H]. discriminate H. Qed.

(** C1 (amended): a successful refresh sets the consecutive-failure
    counter to zero whatever it was; on the reset scenario, from any
    non-terminal status, lost-contact is raised after the fifth failure
    that follows the reset, when all eight refreshes (seven failed, one
    successful) have been attempted; after the first seven the poller is
    still polling, with the counter at four. *)
Theorem counter_resets_and_eight_attempts (s0 : Status)
    (Hs0 : in_END_STATES s0 = false) :
  (∀ job n s, (try_refresh (RefreshOk s) job n).1.2 = 0) ∧
  (let r := _await_completion reset_scenario {| status := s0 |} in
   outcome r = lost_contact ∧ refresh_calls r = 8 ∧
   successful_refreshes r = 1 ∧ unread r = [] ∧
   refresh_attempts_after r = 5) ∧
  (let r := _await_completion (take 7 reset_scenario) {| status := s0 |} in
   outcome r = AwaitingRefresh ∧ refresh_calls r = 7 ∧
   refresh_attempts_after r = 4).
Proof.
  split; [reflexivity |].
  by_status s0 Hs0; vm_compute; auto 10.
Qed.

Lemma counter_resets_and_eight_attempts_witness :
  let r := _await_completion reset_scenario {| status := CREATED |} in
  outcome r = lost_contact ∧ refresh_calls r = 8.
Proof.
  destruct (counter_resets_and_eight_attempts CREATED eq_refl)
    as (_ & (H1 & H2 & _) & _).
  split; assumption.
Defined.

(** C2: from any non-terminal status, when the refreshes fail, the poller
    raises lost-contact after exactly five calls of [job.refresh()]: it
    has not raised after fewer, and whatever the service would have
    answered next is never asked for. *)
Theorem all_failures_lost_contact_after_five (s0 : Status)
    (rest : list refresh_outcome) (Hs0 : in_END_STATES s0 = false) :
  (let r := _await_completion (repeat RefreshFails 5 ++ rest) {| status := s0 |} in
   outcome r = lost_contact ∧ refresh_calls r = 5 ∧
   successful_refreshes r = 0 ∧ unread r = rest ∧
   job_after r = {| status := s0 |}) ∧
  (∀ n, n < 5 →
     let r := _await_completion (repeat RefreshFails n) {| status := s0 |} in
     outcome r = AwaitingRefresh ∧ refresh_calls r = n).
Proof.
  split.
  - unfold _await_completion. simpl app.
    rewrite !await_loop_failed_refresh by (simpl; first [lia | assumption]).
    rewrite await_loop_budget_spent by (simpl; lia).
    repeat split.
  - intros n Hn.
    do 5 (destruct n as [| n]; [by_status s0 Hs0; vm_compute; auto |]).
    lia.
Qed.

Lemma all_failures_lost_contact_after_five_witness :
  let r := _await_completion
             (repeat RefreshFails 5 ++ [RefreshFails; RefreshOk COMPLETED])
             {| status := PENDING |} in
  outcome r = lost_contact ∧ refresh_calls r = 5 ∧
  unread r = [RefreshFails; RefreshOk COMPLETED].
Proof.
  destruct (all_failures_lost_contact_after_five PENDING
              [RefreshFails; RefreshOk COMPLETED] eq_refl)
    as ((H1 & H2 & _ & H3 & _) & _).
  repeat split; assumption.
Defined.

(** C10: the status is inspected after a failed refresh too: for a job
    last known as COMPLETED, one failed refresh makes the poller return
    normally, no refresh having succeeded and the rest of the service's
    answers unread. *)
Theorem completed_job_returns_on_failed_refresh (rest : list refresh_outcome) :
  let r := _await_completion (RefreshFails :: rest) {| status := COMPLETED |} in
  outcome r = Returned ∧ refresh_calls r = 1 ∧ successful_refreshes r = 0 ∧
  refresh_attempts_after r = 1 ∧ unread r = rest.
Proof. vm_compute. auto 10. Qed.

(** Running the model assigns the report attributes at most: the flag
    is left alone. *)
Lemma _run_model_keeps_flag (w : world) (self : BaseReport) :
  _model_run (_run_model w self).1.1 = _model_run self.
Proof.
  unfold _run_model, _run_cloud, _run_local.
  destruct (decide (runner_mode self = CLOUD)).
  - destruct (outcome _); reflexivity.
  - destruct (decide (runner_mode self = LOCAL)); [| reflexivity].
    destruct (docker_ok w); [| reflexivity].
    destruct (report_json_gz w); reflexivity.
Qed.

Lemma _run_in_project_keeps_flag (w : world) (self : BaseReport) :
  _model_run (_run_in_project w self).1.1 = _model_run self.
Proof.
  unfold _run_in_project.
  pose proof (_run_model_keeps_flag w self) as H.
  destruct (_run_model w self) as [[self' c] tr]. exact H.
Qed.

(** [_run] sets [_model_run] exactly when the run in the project
    returned; otherwise the flag is as it was. *)
Lemma run_model_run_flag (w : world) (self self' : BaseReport)
    (c : completion) (tr : list run_event) :
  run w self = (self', c, tr) →
  _model_run self' = match c with Returned => true | _ => _model_run self end.
Proof.
  unfold run, _run.
  pose proof (_run_in_project_keeps_flag w self) as H.
  destruct (_run_in_project w self) as [[self1 c1] tr1]. simpl in H.
  destruct (project self); destruct c1; intros [= <- <- <-]; simpl; congruence.
Qed.

(** C8: on a report whose [_model_run] is False, [as_dict] and [as_html]
    raise ModelRunException with the module's message; this is still so
    after a [run()] that raised, and after a [run()] that returned the
    guard passes. *)
Theorem accessors_need_completed_run (self : BaseReport) (w : world)
    (Hnot_run : _model_run self = false) :
  as_dict self = inl (ModelRunException _model_run_exc_message) ∧
  as_html self = inl (ModelRunException _model_run_exc_message) ∧
  (∀ self' e tr, run w self = (self', Raised e, tr) →
     as_dict self' = inl (ModelRunException _model_run_exc_message) ∧
     as_html self' = inl (ModelRunException _model_run_exc_message)) ∧
  (∀ self' tr, run w self = (self', Returned, tr) →
     _check_model_run self' = inr tt).
Proof.
  unfold as_dict, as_html, _check_model_run.
  rewrite Hnot_run. simpl.
  split; [reflexivity |]. split; [reflexivity |]. split.
  - intros self' e tr Hrun.
    rewrite (run_model_run_flag _ _ _ _ _ Hrun), Hnot_run. auto.
  - intros self' tr Hrun.
    rewrite (run_model_run_flag _ _ _ _ _ Hrun). reflexivity.
Qed.

Lemma accessors_need_completed_run_witness :
  let self := __init__ "/home/user" None "train.csv" "holdout.csv" None CLOUD in
  as_dict self = inl (ModelRunException _model_run_exc_message) ∧
  as_dict (run cooperative_world self).1.1 = inr [("score", "97")].
Proof.
  intros self.
  destruct (accessors_need_completed_run self cooperative_world eq_refl)
    as (Hd & _ & _ & _).
  split; [exact Hd | reflexivity].
Defined.

(** C9: with [runner_mode] MANUAL, [run()] starts no job, neither in the
    cloud nor in a local container, and leaves the report attributes as
    they were, yet it returns with [_model_run] set: the guard then
    passes, and on a report whose attributes were never assigned the
    accessors get past it and fail on the missing attribute instead. *)
Theorem manual_run_sets_model_run (w : world) (self : BaseReport)
    (Hmanual : runner_mode self = MANUAL) :
  let '(self', c, tr) := run w self in
  c = Returned ∧
  Forall (λ e, starts_job e = false) tr ∧
  _model_run self' = true ∧
  _check_model_run self' = inr tt ∧
  _report_dict self' = _report_dict self ∧
  _report_html self' = _report_html self ∧
  (_report_dict self = None → as_dict self' = inl (AttributeError "_report_dict")) ∧
  (_report_html self = None → as_html self' = inl (AttributeError "_report_html")).
Proof.
  unfold run, _run, _run_in_project, _run_model.
  rewrite Hmanual. simpl.
  destruct (project self); simpl;
    (split; [reflexivity |]); (split; [repeat constructor |]);
    unfold as_dict, as_html, _check_model_run; simpl;
    repeat split; intros ->; reflexivity.
Qed.

Lemma manual_run_sets_model_run_witness :
  let self := __init__ "/home/user" None "train.csv" "holdout.csv" None MANUAL in
  _model_run (run cooperative_world self).1.1 = true ∧
  as_dict (run cooperative_world self).1.1 = inl (AttributeError "_report_dict").
Proof.
  intros self.
  pose proof (manual_run_sets_model_run cooperative_world self eq_refl) as H.
  destruct (run cooperative_world self) as [[self' c] tr].
  destruct H as (_ & _ & Hrun & _ & _ & _ & Hd & _).
  split; [exact Hrun | exact (Hd eq_refl)].
Defined.

(** ** The poller on any service *)

Lemma await_loop_nil job n trace :
  await_loop [] job n trace =
    if 5 <=? n then
      {| outcome := lost_contact; job_after := job;
         refresh_attempts_after := n; events := trace; unread := [] |}
    else
      {| outcome := AwaitingRefresh; job_after := job;
         refresh_attempts_after := n; events := trace; unread := [] |}.
Proof. reflexivity. Qed.

Lemma await_loop_cons o service job n trace :
  await_loop (o :: service) job n trace =
    if 5 <=? n then
      {| outcome := lost_contact; job_after := job;
         refresh_attempts_after := n; events := trace; unread := o :: service |}
    else
      let '(job', n', evs) := try_refresh o job n in
      let trace' := trace ++ Sleep 10 :: evs in
      if decide (status job' = COMPLETED) then
        {| outcome := Returned; job_after := job';
           refresh_attempts_after := n'; events := trace'; unread := service |}
      else if in_END_STATES (status job') then
        {| outcome := finished_unsuccessfully; job_after := job';
           refresh_attempts_after := n'; events := trace'; unread := service |}
      else await_loop service job' n' trace'.
Proof. reflexivity. Qed.

(** What holds of every run of the loop that starts within the budget. *)
Lemma await_loop_postcondition service :
  ∀ job n trace, n ≤ 5 →
    let r := await_loop service job n trace in
    refresh_attempts_after r ≤ 5 ∧
    (outcome r = Returned → status (job_after r) = COMPLETED) ∧
    (outcome r = finished_unsuccessfully →
       in_END_STATES (status (job_after r)) = true ∧
       status (job_after r) ≠ COMPLETED) ∧
    (outcome r = lost_contact → refresh_attempts_after r = 5) ∧
    (outcome r = AwaitingRefresh → unread r = [] ∧ refresh_attempts_after r < 5) ∧
    (∀ e, outcome r = Raised e →
       outcome r = lost_contact ∨ outcome r = finished_unsuccessfully).
Proof.
  induction service as [| o service IH]; intros job n trace Hn.
  - rewrite await_loop_nil.
    destruct (5 <=? n) eqn:Hbudget; simpl.
    + apply Nat.leb_le in Hbudget.
      repeat split; try discriminate; try lia; auto.
    + apply Nat.leb_gt in Hbudget.
      repeat split; try discriminate; try lia.
  - rewrite await_loop_cons.
    destruct (5 <=? n) eqn:Hbudget.
    { apply Nat.leb_le in Hbudget. simpl.
      repeat split; try discriminate; try lia; auto. }
    apply Nat.leb_gt in Hbudget.
    destruct o as [| s]; cbn [try_refresh].
    + destruct (decide (status job = COMPLETED)) as [Hc | Hc];
        [simpl; repeat split; try discriminate; try lia; auto |].
      destruct (in_END_STATES (status job)) eqn:He;
        [simpl; repeat split; try discriminate; try lia; auto |].
      apply IH. lia.
    + cbn [status].
      destruct (decide (s = COMPLETED)) as [Hc | Hc];
        [simpl; repeat split; try discriminate; try lia; auto |].
      destruct (in_END_STATES s) eqn:He;
        [simpl; repeat split; try discriminate; try lia; auto |].
      apply IH. lia.
Qed.

(** X1: however the service behaves, when the poller returns the job is
    COMPLETED, when it raises it raises one of its two errors, the
    unsuccessful one only with the job in an end state other than
    COMPLETED and the lost-contact one only with the failure counter at
    five; the counter never exceeds five. *)
Theorem poller_outcome_matches_job (service : list refresh_outcome) (job : Job) :
  let r := _await_completion service job in
  refresh_attempts_after r ≤ 5 ∧
  (outcome r = Returned → status (job_after r) = COMPLETED) ∧
  (outcome r = finished_unsuccessfully →
     in_END_STATES (status (job_after r)) = true ∧
     status (job_after r) ≠ COMPLETED) ∧
  (outcome r = lost_contact → refresh_attempts_after r = 5) ∧
  (outcome r = AwaitingRefresh → unread r = [] ∧ refresh_attempts_after r < 5) ∧
  (∀ e, outcome r = Raised e →
     outcome r = lost_contact ∨ outcome r = finished_unsuccessfully).
Proof. apply await_loop_postcondition. lia. Qed.

Lemma await_loop_lost_contact service :
  ∀ job n trace, n ≤ 5 →
    let r := await_loop service job n trace in
    outcome r = lost_contact →
    service = repeat RefreshFails (5 - n) ++ unread r ∨
    ∃ before, service = before ++ repeat RefreshFails 5 ++ unread r.
Proof.
  induction service as [| o service IH]; intros job n trace Hn.
  - rewrite await_loop_nil.
    destruct (5 <=? n) eqn:Hbudget; simpl; [| discriminate].
    apply Nat.leb_le in Hbudget. intros _. left.
    replace (5 - n) with 0 by lia. reflexivity.
  - rewrite await_loop_cons.
    destruct (5 <=? n) eqn:Hbudget.
    { apply Nat.leb_le in Hbudget. simpl. intros _. left.
      replace (5 - n) with 0 by lia. reflexivity. }
    apply Nat.leb_gt in Hbudget.
    destruct o as [| s]; cbn [try_refresh].
    + destruct (decide (status job = COMPLETED)); [discriminate |].
      destruct (in_END_STATES (status job)); [discriminate |].
      intros Hlost.
      destruct (IH job (n + 1) (trace ++ [Sleep 10; Refresh false;
                                          LogDebug (5 - (n + 1))]))
        as [Hrun | [before Hrun]]; [lia | exact Hlost | |].
      * left. replace (5 - n) with (S (5 - (n + 1))) by lia.
        simpl. f_equal. exact Hrun.
      * right. exists (RefreshFails :: before). simpl. f_equal. exact Hrun.
    + cbn [status].
      destruct (decide (s = COMPLETED)); [discriminate |].
      destruct (in_END_STATES s); [discriminate |].
      intros Hlost. right.
      destruct (IH {| status := s |} 0 (trace ++ [Sleep 10; Refresh true]))
        as [Hrun | [before Hrun]]; [lia | exact Hlost | |].
      * exists [RefreshOk s]. simpl. f_equal. exact Hrun.
      * exists (RefreshOk s :: before). simpl. f_equal. exact Hrun.
Qed.

(** X2: the poller gives up only on five failures in a row: whenever it
    raises lost-contact, the refreshes it made end with five consecutive
    failed ones, whatever came before them. *)
Theorem lost_contact_only_after_five_failures (service : list refresh_outcome)
    (job : Job)
    (Hlost : outcome (_await_completion service job) = lost_contact) :
  ∃ before,
    service = before ++ repeat RefreshFails 5
              ++ unread (_await_completion service job).
Proof.
  destruct (await_loop_lost_contact service job 0 [] (Nat.le_0_l 5) Hlost)
    as [Hrun | Hrun]; [exists [] |]; exact Hrun.
Qed.

Lemma lost_contact_only_after_five_failures_witness :
  ∃ before,
    reset_scenario = before ++ repeat RefreshFails 5
                     ++ unread (_await_completion reset_scenario
                                  {| status := PENDING |}).
Proof.
  apply (lost_contact_only_after_five_failures reset_scenario
           {| status := PENDING |}).
  reflexivity.
Defined.

Lemma count_refreshes_app evs1 evs2 :
  count_refreshes (evs1 ++ evs2) = count_refreshes evs1 + count_refreshes evs2.
Proof.
  unfold count_refreshes. rewrite List.filter_app, length_app. reflexivity.
Qed.

Lemma seconds_app evs1 evs2 : seconds (evs1 ++ evs2) = seconds evs1 + seconds evs2.
Proof.
  induction evs1 as [| e evs1 IH]; [reflexivity |].
  simpl. rewrite IH. destruct e; lia.
Qed.

Lemma await_loop_accounting service :
  ∀ job n trace,
    let r := await_loop service job n trace in
    length service = (count_refreshes (events r) - count_refreshes trace)
                     + length (unread r) ∧
    count_refreshes trace ≤ count_refreshes (events r) ∧
    seconds (events r) - seconds trace
      = 10 * (count_refreshes (events r) - count_refreshes trace) ∧
    seconds trace ≤ seconds (events r).
Proof.
  induction service as [| o service IH]; intros job n trace.
  - rewrite await_loop_nil. destruct (5 <=? n); simpl; lia.
  - rewrite await_loop_cons. destruct (5 <=? n); [simpl; lia |].
    assert (Hstep : ∀ job' n' evs,
              count_refreshes evs = 1 → seconds evs = 0 →
              let r := await_loop service job' n' (trace ++ Sleep 10 :: evs) in
              length (o :: service)
                = (count_refreshes (events r) - count_refreshes trace)
                  + length (unread r) ∧
              count_refreshes trace ≤ count_refreshes (events r) ∧
              seconds (events r) - seconds trace
                = 10 * (count_refreshes (events r) - count_refreshes trace) ∧
              seconds trace ≤ seconds (events r)).
    { intros job' n' evs Hone Hzero.
      pose proof (IH job' n' (trace ++ Sleep 10 :: evs)) as Hrec.
      rewrite count_refreshes_app, seconds_app in Hrec.
      change (count_refreshes (Sleep 10 :: evs)) with (count_refreshes evs) in Hrec.
      change (seconds (Sleep 10 :: evs)) with (10 + seconds evs) in Hrec.
      rewrite Hone, Hzero in Hrec. simpl in *. lia. }
    assert (Hstop : ∀ evs,
              count_refreshes evs = 1 → seconds evs = 0 →
              S (length service)
                = (count_refreshes (trace ++ Sleep 10 :: evs) - count_refreshes trace)
                  + length service ∧
              count_refreshes trace ≤ count_refreshes (trace ++ Sleep 10 :: evs) ∧
              seconds (trace ++ Sleep 10 :: evs) - seconds trace
                = 10 * (count_refreshes (trace ++ Sleep 10 :: evs)
                        - count_refreshes trace) ∧
              seconds trace ≤ seconds (trace ++ Sleep 10 :: evs)).
    { intros evs Hone Hzero.
      rewrite count_refreshes_app, seconds_app.
      change (count_refreshes (Sleep 10 :: evs)) with (count_refreshes evs).
      change (seconds (Sleep 10 :: evs)) with (10 + seconds evs).
      rewrite Hone, Hzero. lia. }
    destruct o as [| s]; cbn [try_refresh].
    + destruct (decide (status job = COMPLETED));
        [apply Hstop; reflexivity |].
      destruct (in_END_STATES (status job));
        [apply Hstop; reflexivity |].
      apply Hstep; reflexivity.
    + cbn [status].
      destruct (decide (s = COMPLETED)); [apply Hstop; reflexivity |].
      destruct (in_END_STATES s); [apply Hstop; reflexivity |].
      apply Hstep; reflexivity.
Qed.

(** X3: the poller makes one refresh per answer it takes from the
    service, none beyond, and sleeps ten seconds before each of them:
    the refreshes made and the answers left unread add up to the
    service's, and the time slept is ten times the refreshes made. *)
Theorem one_sleep_and_one_answer_per_refresh (service : list refresh_outcome)
    (job : Job) :
  let r := _await_completion service job in
  refresh_calls r + length (unread r) = length service ∧
  seconds_slept r = 10 * refresh_calls r.
Proof.
  destruct (await_loop_accounting service job 0 []) as (Hlen & _ & Hsec & _).
  unfold refresh_calls, seconds_slept, _await_completion.
  fold (count_refreshes (events (await_loop service job 0 []))).
  change (count_refreshes []) with 0 in *. change (seconds []) with 0 in *.
  lia.
Qed.

Lemma await_loop_failures k :
  ∀ service s0 n trace,
    in_END_STATES s0 = false → n + k < 5 →
    ∃ trace',
      await_loop (repeat RefreshFails k ++ service) {| status := s0 |} n trace
      = await_loop service {| status := s0 |} (n + k) trace'.
Proof.
  induction k as [| k IH]; intros service s0 n trace Hs0 Hn.
  - exists trace. rewrite Nat.add_0_r. reflexivity.
  - simpl repeat. simpl app.
    rewrite await_loop_failed_refresh by (first [lia | assumption]).
    destruct (IH service s0 (n + 1) (trace ++ [Sleep 10; Refresh false;
                                               LogDebug (5 - (n + 1))]) Hs0)
      as [trace' Hrun]; [lia |].
    exists trace'. rewrite Hrun. f_equal. lia.
Qed.

Lemma await_loop_answer service s job n trace :
  n < 5 →
  await_loop (RefreshOk s :: service) job n trace =
    if in_END_STATES s then
      {| outcome := ending s; job_after := {| status := s |};
         refresh_attempts_after := 0;
         events := trace ++ [Sleep 10; Refresh true]; unread := service |}
    else await_loop service {| status := s |} 0 (trace ++ [Sleep 10; Refresh true]).
Proof.
  intros Hn. rewrite await_loop_cons.
  apply Nat.leb_gt in Hn. rewrite Hn.
  cbn [try_refresh status]. unfold ending.
  destruct s; reflexivity.
Qed.

Lemma await_loop_answers blocks :
  ∀ failures s rest s0 trace,
    in_END_STATES s0 = false →
    Forall (λ b, b.1 < 5 ∧ in_END_STATES b.2 = false) blocks →
    failures < 5 → in_END_STATES s = true →
    let r := await_loop (answers (blocks ++ [(failures, s)]) ++ rest)
               {| status := s0 |} 0 trace in
    outcome r = ending s ∧ unread r = rest ∧
    job_after r = {| status := s |} ∧ refresh_attempts_after r = 0.
Proof.
  induction blocks as [| [f st] blocks IH];
    intros failures s rest s0 trace Hs0 Hblocks Hf Hs.
  - simpl answers. rewrite <- app_assoc. simpl app.
    destruct (await_loop_failures failures (RefreshOk s :: rest) s0 0 trace Hs0)
      as [trace' ->]; [lia |].
    rewrite await_loop_answer by lia. rewrite Hs. auto.
  - apply Forall_cons in Hblocks as [[Hf' Hst] Hblocks]. simpl in Hf', Hst.
    simpl answers. rewrite <- app_assoc. simpl app.
    destruct (await_loop_failures f
                (RefreshOk st :: answers (blocks ++ [(failures, s)]) ++ rest)
                s0 0 trace Hs0) as [trace' ->]; [lia |].
    rewrite await_loop_answer by lia. rewrite Hst.
    apply IH; assumption.
Qed.

(** X4: failed refreshes are forgiven as long as fewer than five come in
    a row: on a service that after every run of at most four failures
    reports a status, non-terminal each time and an end state at last, the
    poller, started on a job that is not finished, reads up to that report
    and no further, returns if it is COMPLETED and raises the unsuccessful
    error otherwise, however many failures there were in all. *)
Theorem poller_forgives_short_failure_runs (blocks : list (nat * Status))
    (failures : nat) (s s0 : Status) (rest : list refresh_outcome)
    (Hs0 : in_END_STATES s0 = false)
    (Hblocks : Forall (λ b, b.1 < 5 ∧ in_END_STATES b.2 = false) blocks)
    (Hfailures : failures < 5)
    (Hs : in_END_STATES s = true) :
  let r := _await_completion (answers (blocks ++ [(failures, s)]) ++ rest)
             {| status := s0 |} in
  outcome r = ending s ∧ unread r = rest ∧
  job_after r = {| status := s |} ∧
  refresh_calls r = length (answers (blocks ++ [(failures, s)])).
Proof.
  intros r.
  destruct (await_loop_answers blocks failures s rest s0 [] Hs0 Hblocks
              Hfailures Hs) as (Hout & Hunread & Hjob & _).
  fold r in Hout, Hunread, Hjob.
  repeat split; try assumption.
  destruct (await_loop_accounting (answers (blocks ++ [(failures, s)]) ++ rest)
              {| status := s0 |} 0 []) as (Hlen & _).
  unfold r, refresh_calls, _await_completion.
  fold (count_refreshes
          (events (await_loop (answers (blocks ++ [(failures, s)]) ++ rest)
                     {| status := s0 |} 0 []))).
  unfold r, _await_completion in Hunread. rewrite Hunread in Hlen.
  rewrite length_app in Hlen. change (count_refreshes []) with 0 in Hlen. lia.
Qed.

Lemma poller_forgives_short_failure_runs_witness :
  let r := _await_completion
             (answers ([(4, PENDING); (0, ACTIVE); (4, ACTIVE)] ++ [(3, COMPLETED)])
              ++ [RefreshFails])
             {| status := CREATED |} in
  outcome r = Returned ∧ unread r = [RefreshFails] ∧ refresh_calls r = 15.
Proof.
  destruct (poller_forgives_short_failure_runs
              [(4, PENDING); (0, ACTIVE); (4, ACTIVE)] 3 COMPLETED CREATED
              [RefreshFails])
    as (Hout & Hunread & _ & Hcalls).
  - reflexivity.
  - repeat constructor.
  - lia.
  - reflexivity.
  - split; [exact Hout |]. split; [exact Hunread | exact Hcalls].
Defined.

(** ** Reports run in the cloud and in a container *)

Lemma Forall_map_Poll (P : run_event → Prop) (evs : list poll_event) :
  (∀ e, P (Poll e)) → Forall P (map Poll evs).
Proof. intros HP. induction evs; simpl; constructor; auto. Qed.


(** The calls of [_run_model], by runner. *)
Lemma _run_model_calls (w : world) (self : BaseReport) :
  let '(_, _, tr) := _run_model w self in
  Forall (λ e, is_tmp_project_call e = false) tr ∧
  (runner_mode self = CLOUD → Forall (λ e, is_local_call e = false) tr) ∧
  (runner_mode self = LOCAL → Forall (λ e, is_cloud_call e = false) tr).
Proof.
  unfold _run_model, _run_cloud, _run_local.
  destruct (decide (runner_mode self = CLOUD)) as [Hc | Hc].
  - destruct (outcome _); (split; [| split; [intros _ | congruence]]);
      rewrite ?Forall_app; repeat split;
      repeat first [ apply Forall_cons; split; [reflexivity |]
                   | apply Forall_nil_2
                   | apply Forall_map_Poll; reflexivity ].
  - destruct (decide (runner_mode self = LOCAL)) as [Hl | Hl].
    + destruct (docker_ok w); [destruct (report_json_gz w) |];
        (split; [| split; [congruence | intros _]]);
        repeat constructor.
    + repeat split; try congruence; constructor.
Qed.

(** X5: a report without a project runs in a temporary one, entered
    before the model object is created and left once the run has ended,
    by a return or by a raise; a report with a project never touches a
    temporary one. *)
Theorem temporary_project_brackets_the_run (w : world) (self : BaseReport) :
  let '(_, c, tr) := run w self in
  ∃ model_calls,
    Forall (λ e, is_tmp_project_call e = false) (in_project self model_calls) ∧
    match project self with
    | Some _ => tr = in_project self model_calls
    | None =>
        tr = TmpProjectEnter :: in_project self model_calls
             ++ match c with AwaitingRefresh => [] | _ => [TmpProjectExit] end
    end.
Proof.
  unfold run, _run, _run_in_project, in_project.
  pose proof (_run_model_calls w self) as Hcalls.
  destruct (_run_model w self) as [[self' c] tr]. destruct Hcalls as [Hcalls _].
  destruct (project self); destruct c; simpl;
    (eexists; split; [| reflexivity]); constructor; auto.
Qed.








End ReportsProperties.

(** * Properties of the record commands *)
Section RecordsProperties.
Import Jobs Config Records.
Local Open Scope py_scope.

Lemma of_value_value (m : RunnerMode) : of_value (value m) = Some m.
Proof. destruct m; reflexivity. Qed.

Lemma eqb_value (m1 m2 : RunnerMode) :
  String.eqb (value m1) (value m2) = bool_decide (m1 = m2).
Proof. destruct m1, m2; reflexivity. Qed.

(** C5: [_check_model_and_runner] returns the value of LOCAL when the
    model is not a cloud model and the requested runner is the value of
    CLOUD, logging the override, and returns the requested runner
    unchanged, logging nothing, in every other case; it touches no
    object. *)
Theorem check_model_and_runner_upgrade (sc : SessionContext)
    (runner : string) (m : RunnerMode) (st : state) :
  let upgrade := negb (is_cloud_model sc) && String.eqb runner (value CLOUD) in
  (_check_model_and_runner sc runner st).1 =
    inr (if upgrade then value LOCAL else runner) ∧
  (_check_model_and_runner sc (value m) st).1 =
    inr (value (if negb (is_cloud_model sc) && bool_decide (m = CLOUD)
                then LOCAL else m)) ∧
  store (_check_model_and_runner sc runner st).2 = store st ∧
  trace (_check_model_and_runner sc runner st).2 =
    trace st ++
    (if upgrade then
       [LogInfo ("The model " +:+ model_id sc +:+ " is configured for local runs, "
                 +:+ "but runner_mode is " +:+ runner +:+ ".");
        LogInfo "Setting runner_mode to local and running the model."]
     else []).
Proof.
  unfold _check_model_and_runner. rewrite eqb_value.
  destruct (is_cloud_model sc), m; simpl;
    destruct (String.eqb runner "cloud"); simpl;
    rewrite <- ?app_assoc, ?app_nil_r; auto.
Qed.

(** C6, as stated in the claim, fails: with runner LOCAL, a model that is
    not a cloud model and no output directory, but no model path either,
    the error raised does not name the --output flag. *)
Lemma missing_model_path_reported_first :
  ¬ ∃ message,
      _validate_params local_only_model (value LOCAL) None None None =
        inl (BadOptionUsage "--output" message).
Proof. intros [message H]. vm_compute in H. discriminate H. Qed.

(** C6 (amended): with runner LOCAL, a model that is not a cloud model,
    its model path supplied and no output directory, the validator raises
    the configuration error naming --output, and the commands stop there
    having called nothing; when the model path is missing as well, the
    rule before it decides and the error names --model-path. *)
Theorem local_without_output_rejected (sc : SessionContext) (sv : service)
    (output model_path in_data : option string)
    (Hlocal_model : is_cloud_model sc = false)
    (Hno_output : truthy output = false) :
  (truthy model_path = true →
     _validate_params sc (value LOCAL) output model_path in_data = inl output_error ∧
     (∀ action params st,
        records_command action params sc sv (value LOCAL) output in_data model_path st
        = (inl output_error, st)) ∧
     (∀ ref_data action param st,
        run sc sv (value LOCAL) output in_data model_path ref_data action param st
        = (inl output_error, st))) ∧
  (truthy model_path = false →
     _validate_params sc (value LOCAL) output model_path in_data =
       inl (BadOptionUsage "--model-path"
              "--model-path is required when running a local model.")).
Proof.
  split; intros Hpath.
  - assert (Hv : ∀ d, _validate_params sc (value LOCAL) output model_path d
                      = inl output_error).
    { intros d. unfold _validate_params.
      rewrite Hlocal_model, Hno_output, Hpath. reflexivity. }
    split; [apply Hv |].
    split; intros.
    + unfold records_command, _check_model_and_runner, bind.
      rewrite Hlocal_model. simpl. rewrite Hv. reflexivity.
    + unfold run, _check_model_and_runner, bind.
      rewrite Hlocal_model. simpl. rewrite Hv. reflexivity.
  - unfold _validate_params.
    rewrite Hlocal_model, Hpath. reflexivity.
Qed.

Lemma local_without_output_rejected_witness :
  transform local_only_model failing_job (value LOCAL) None
    (Some "in.csv") (Some "model.tar.gz") initial
  = (inl output_error, initial).
Proof.
  destruct (local_without_output_rejected local_only_model failing_job
              None (Some "model.tar.gz") (Some "in.csv") eq_refl eq_refl)
    as [H _].
  destruct (H eq_refl) as (_ & Hcmd & _).
  apply Hcmd.
Defined.

(** ** Reference data under LOCAL *)

Lemma state_eta (st : state) : {| store := store st; trace := trace st |} = st.
Proof. destruct st; reflexivity. Qed.

Lemma set_item_at (l : loc) (key v : string) (d : gmap string string) (st : state) :
  store st !! l = Some {| ref_dict := d |} →
  set_item l key v st =
    (inr tt, {| store := <[l := {| ref_dict := <[key := v]> d |}]> (store st);
                trace := trace st |}).
Proof. intros H. unfold set_item, bind, load. rewrite H. reflexivity. Qed.

(** The loop of the local branch rewrites the object at [l] in place and
    does nothing else. *)
Lemma for_each_set_local (l : loc) (items : list (string * string)) :
  ∀ (d : gmap string string) (st : state),
    store st !! l = Some {| ref_dict := d |} →
    for_each items (λ '(key, _), set_item l key LOCAL_) st =
      (inr tt, {| store := <[l := {| ref_dict := overwritten d items |}]> (store st);
                  trace := trace st |}).
Proof.
  induction items as [| [key data_source] items IH]; intros d st Hl.
  - simpl. unfold ret. rewrite insert_id by exact Hl.
    rewrite state_eta. reflexivity.
  - simpl. unfold bind at 1. rewrite (set_item_at _ _ _ _ _ Hl).
    rewrite (IH (<[key := LOCAL_]> d)) by apply lookup_insert_eq.
    simpl. rewrite insert_insert_eq. reflexivity.
Qed.

Lemma overwritten_lookup (items : list (string * string)) :
  ∀ (d : gmap string string) (key : string),
    overwritten d items !! key =
      if bool_decide (key ∈ items.*1) then Some LOCAL_ else d !! key.
Proof.
  induction items as [| [k v] items IH]; intros d key; [reflexivity |].
  unfold overwritten in *. simpl. rewrite IH.
  case_bool_decide as Hin; case_bool_decide as Hin'.
  - reflexivity.
  - exfalso. apply Hin'. right. exact Hin.
  - apply elem_of_cons in Hin' as [-> | Hin']; [| contradiction].
    apply lookup_insert_eq.
  - apply lookup_insert_ne. intros ->. apply Hin'. left.
Qed.

(** Looping over the mapping's own items sends every key to the
    sentinel and adds none. *)
Lemma overwritten_own_items (d : gmap string string) :
  overwritten d (map_to_list d) = (λ _, LOCAL_) <$> d.
Proof.
  apply map_eq. intros key.
  rewrite overwritten_lookup, lookup_fmap.
  case_bool_decide as Hin.
  - apply list_elem_of_fmap in Hin as [[k v] [-> Hkv]].
    apply elem_of_map_to_list in Hkv. simpl. rewrite Hkv. reflexivity.
  - destruct (d !! key) as [v |] eqn:Hd; [| reflexivity].
    exfalso. apply Hin. apply list_elem_of_fmap.
    exists (key, v). split; [reflexivity |].
    apply elem_of_map_to_list. exact Hd.
Qed.

(** What [_configure_ref_data] does in its last branch: the mapping is
    empty, or the runner is neither MANUAL nor CLOUD. *)
Lemma _configure_ref_data_else (sc : SessionContext) (sv : service)
    (l : loc) (rd : RefData) (runner : string) (st : state) :
  store st !! l = Some rd →
  negb (is_empty rd) && String.eqb runner (value MANUAL) = false →
  negb (is_empty rd) && String.eqb runner (value CLOUD) = false →
  _configure_ref_data sc sv l runner st =
    (inr l, {| store := <[l := {| ref_dict := (λ _, LOCAL_) <$> ref_dict rd |}]> (store st);
               trace := trace st |}).
Proof.
  intros Hl Hm Hc. unfold _configure_ref_data, bind at 1, load.
  rewrite Hl, Hm, Hc.
  unfold bind. destruct rd as [d]. simpl.
  rewrite (for_each_set_local l _ d st Hl).
  rewrite overwritten_own_items. reflexivity.
Qed.

(** ** The two copies of the reference data *)

Lemma upload_store (sv : service) (path : string) (st : state) :
  store (upload sv path st).2 = store st.
Proof.
  unfold upload, bind, emit. destruct (upload_artifact sv path); reflexivity.
Qed.

Lemma upload_raises (sv : service) (path : string) (st st' : state) (e : exn) :
  upload sv path st = (inl e, st') →
  e = DataSourceError path ∧ upload_artifact sv path = None.
Proof.
  unfold upload, bind, emit.
  destruct (upload_artifact sv path); intros [= <- <-]; auto.
Qed.

(** The cloud loop touches no object; when it returns, the mapping it
    built has the keys it started with and those of the items; when it
    raises, an upload failed. *)
Lemma upload_items_effect (sv : service) (items : list (string * string)) :
  ∀ (acc : gmap string string) (st : state),
    store (upload_items sv items acc st).2 = store st ∧
    match (upload_items sv items acc st).1 with
    | inr d => dom d = dom acc ∪ list_to_set items.*1
    | inl e => ∃ path, e = DataSourceError path ∧ upload_artifact sv path = None
    end.
Proof.
  induction items as [| [key data_source] items IH]; intros acc st.
  - simpl. split; [reflexivity | symmetry; apply union_empty_r_L].
  - simpl. unfold bind.
    pose proof (upload_store sv data_source st) as Hst.
    destruct (upload sv data_source st) as [[e | uri] st1] eqn:Hup; simpl in *.
    + split; [exact Hst |]. exists data_source.
      exact (upload_raises _ _ _ _ _ Hup).
    + destruct (IH (<[key := uri]> acc) st1) as [Hst' Hr].
      split; [congruence |].
      destruct (upload_items sv items (<[key := uri]> acc) st1).1; [exact Hr |].
      rewrite Hr, dom_insert_L. simpl.
      rewrite (comm_L (∪) {[key]} (dom acc)), <- (assoc_L (∪)). reflexivity.
Qed.

Lemma fresh_not_allocated (h : gmap loc RefData) (l : loc) :
  is_Some (h !! l) → fresh (dom h) ≠ l.
Proof.
  intros Hl Heq. apply elem_of_dom in Hl. rewrite <- Heq in Hl.
  exact (is_fresh (dom h) Hl).
Qed.

Lemma fresh_lookup_None (h : gmap loc RefData) : h !! fresh (dom h) = None.
Proof. apply not_elem_of_dom. apply is_fresh. Qed.

(** C7: in [run], for every runner and every reference mapping, resolving
    the reference data leaves the caller's object, and every other object
    there was, as it is; when the resolution returns, what it returns is
    an object that did not exist before, holding a mapping with the keys
    of the original; it can only fail to return under CLOUD, on an upload
    that raised. *)
Theorem resolution_keeps_callers_mapping (sc : SessionContext) (sv : service)
    (runner : string) (l : loc) (rd : RefData) (st : state)
    (Hl : store st !! l = Some rd) :
  let '(r, st') := run_ref_data sc sv l runner st in
  store st' !! l = Some rd ∧
  (∀ l0 rd0, store st !! l0 = Some rd0 → store st' !! l0 = Some rd0) ∧
  match r with
  | inr l' =>
      l' ≠ l ∧ store st !! l' = None ∧
      ∃ rd', store st' !! l' = Some rd' ∧ dom (ref_dict rd') = dom (ref_dict rd)
  | inl e =>
      runner = value CLOUD ∧
      ∃ path, e = DataSourceError path ∧ upload_artifact sv path = None
  end.
Proof.
  unfold run_ref_data, deepcopy, bind at 1, bind at 1, load, alloc.
  rewrite Hl.
  set (copy := fresh (dom (store st))).
  set (st1 := {| store := <[copy := rd]> (store st); trace := trace st |}).
  assert (Hcopy : store st1 !! copy = Some rd) by apply lookup_insert_eq.
  assert (Hne : copy ≠ l) by (apply fresh_not_allocated; eauto).
  assert (Hnew : store st !! copy = None) by apply fresh_lookup_None.
  assert (Hframe1 : ∀ l0 rd0, store st !! l0 = Some rd0 →
                              store st1 !! l0 = Some rd0).
  { intros l0 rd0 H0. simpl. rewrite lookup_insert_ne; [exact H0 |].
    apply fresh_not_allocated. eauto. }
  assert (Hl1 : store st1 !! l = Some rd) by (apply Hframe1, Hl).
  clearbody st1. clearbody copy.
  destruct (negb (is_empty rd) && String.eqb runner (value MANUAL)) eqn:Hm;
    [| destruct (negb (is_empty rd) && String.eqb runner (value CLOUD)) eqn:Hc].
  - (* MANUAL: the copy goes through as it is *)
    unfold _configure_ref_data, bind, load. rewrite Hcopy, Hm.
    unfold ret. split; [exact Hl1 |]. split; [exact Hframe1 |]. eauto.
  - (* CLOUD: a third object is built from the uploaded locators *)
    unfold _configure_ref_data, bind at 1, load. rewrite Hcopy, Hm, Hc.
    unfold bind at 1, emit. unfold bind.
    set (st2 := {| store := store st1; trace := _ |}).
    destruct (upload_items_effect sv (map_to_list (ref_dict rd)) ∅ st2)
      as [Hstore Hres].
    destruct (upload_items sv (map_to_list (ref_dict rd)) ∅ st2)
      as [[e | d] st3]; simpl in Hstore, Hres.
    + rewrite Hstore. split; [exact Hl1 |]. split; [exact Hframe1 |].
      split; [| exact Hres].
      apply andb_true_iff in Hc as [_ Hc]. apply String.eqb_eq in Hc. exact Hc.
    + unfold ref_data_factory, alloc. rewrite Hstore.
      set (l2 := fresh (dom (store st1))).
      assert (Hl2 : ∀ l0, is_Some (store st1 !! l0) → l2 ≠ l0)
        by (intros l0; apply fresh_not_allocated).
      clearbody l2. cbn [store].
      split; [rewrite lookup_insert_ne; eauto |].
      split; [intros l0 rd0 H0; rewrite lookup_insert_ne; eauto |].
      split; [eauto |].
      split.
      { destruct (store st !! l2) as [rd2 |] eqn:H2; [| reflexivity].
        exfalso. apply (Hl2 l2); [| reflexivity].
        exists rd2. apply Hframe1, H2. }
      eexists. split; [apply lookup_insert_eq |]. simpl.
      rewrite Hres, dom_empty_L, union_empty_l_L.
      apply set_eq. intros key.
      rewrite elem_of_list_to_set, elem_of_dom, list_elem_of_fmap.
      split.
      * intros [[k v] [-> Hkv]]. apply elem_of_map_to_list in Hkv. eauto.
      * intros [v Hv]. exists (key, v). split; [reflexivity |].
        apply elem_of_map_to_list. exact Hv.
  - (* otherwise: the copy is overwritten with the sentinel *)
    rewrite (_configure_ref_data_else sc sv copy rd runner st1 Hcopy Hm Hc).
    cbn [store].
    split; [rewrite lookup_insert_ne; auto |].
    split; [intros l0 rd0 H0; rewrite lookup_insert_ne; [auto |];
            intros ->; rewrite Hnew in H0; discriminate |].
    split; [exact Hne |]. split; [exact Hnew |].
    eexists. split; [apply lookup_insert_eq |]. simpl. apply dom_fmap_L.
Qed.

Lemma resolution_keeps_callers_mapping_witness :
  let '(r, st') := run_ref_data local_only_model failing_job 1%positive
                     (value LOCAL) one_object in
  store st' !! 1%positive = Some {| ref_dict := two_local_files |} ∧
  r ≠ inr 1%positive.
Proof.
  pose proof (resolution_keeps_callers_mapping local_only_model failing_job
                (value LOCAL) 1%positive {| ref_dict := two_local_files |}
                one_object eq_refl) as H.
  destruct (run_ref_data local_only_model failing_job 1%positive
              (value LOCAL) one_object) as [r st'].
  destruct H as (Hkept & _ & Hr).
  split; [exact Hkept |].
  destruct r as [e | l']; [discriminate |].
  destruct Hr as [Hne _]. congruence.
Defined.

(** ** The end of a record-handler run *)

(** C3, as stated in the claim, fails: a cloud run with an output
    directory whose job ends in ERROR, an end state other than COMPLETED,
    has its artifacts downloaded all the same. *)
Lemma failed_cloud_run_still_downloads :
  let st' := (create_and_run_record_handler cloud_model failing_job None
                (Some "transform") (value CLOUD) (Some "out") (Some "in.csv")
                None (Some "gretel_in.csv") None None initial).2 in
  in_END_STATES (polled_status failing_job) = true ∧
  polled_status failing_job ≠ COMPLETED ∧
  ¬ Forall (λ e, is_materialization e = false) (trace st').
Proof.
  split; [reflexivity |]. split; [discriminate |].
  apply (bool_decide_eq_false_1 _). vm_compute. reflexivity.
Qed.

Lemma nothing_materialized_before_polling sc sv params action m data_source
    config output in_data model_path ref :
  Forall (λ e, is_materialization e = false)
    (submission sc sv params action m data_source config
     ++ container_start sc m output in_data model_path ref).
Proof.
  unfold submission, container_start.
  destruct (bool_decide (m = LOCAL)), (debug sc), (truthy output),
    (truthy in_data), (truthy model_path), ref;
    simpl; repeat constructor.
Qed.

(** *** The three parts of [create_and_run_record_handler] *)

Lemma bind_ret {A B} (a : A) (k : A → M B) (st : state) :
  bind (ret a) k st = k a st.
Proof. reflexivity. Qed.

Lemma bind_assoc {A B C} (m : M A) (f : A → M B) (k : B → M C) (st : state) :
  bind (bind m f) k st = bind m (λ a, bind (f a) k) st.
Proof. unfold bind. destruct (m st) as [[e | a] st']; reflexivity. Qed.

Lemma bind_emit {B} (e : event) (k : unit → M B) (st : state) :
  bind (emit e) k st = k tt {| store := store st; trace := trace st ++ [e] |}.
Proof. reflexivity. Qed.

Lemma bind_load {B} (l : loc) (rd : RefData) (k : RefData → M B) (st : state) :
  store st !! l = Some rd → bind (load l) k st = k rd st.
Proof. intros H. unfold bind, load. rewrite H. reflexivity. Qed.

Lemma bind_alloc {B} (rd : RefData) (k : loc → M B) (st : state) :
  bind (alloc rd) k st =
    k (fresh (dom (store st)))
      {| store := <[fresh (dom (store st)) := rd]> (store st); trace := trace st |}.
Proof. reflexivity. Qed.

Lemma bind_when_emit {B} (b : bool) (e : event) (k : unit → M B) (st : state) :
  bind (when b (emit e)) k st =
    k tt {| store := store st; trace := trace st ++ (if b then [e] else []) |}.
Proof.
  destruct b; [reflexivity |].
  simpl. rewrite app_nil_r, state_eta. reflexivity.
Qed.

Lemma bind_when_emit2 {B} (b : bool) (e1 e2 : event) (k : unit → M B) (st : state) :
  bind (when b (bind (emit e1) (λ _, emit e2))) k st =
    k tt {| store := store st; trace := trace st ++ (if b then [e1; e2] else []) |}.
Proof.
  destruct b.
  - unfold when, bind, emit. simpl. rewrite <- app_assoc. reflexivity.
  - simpl. rewrite app_nil_r, state_eta. reflexivity.
Qed.

Ltac decide_modes :=
  repeat match goal with
         | |- context [bool_decide (?a = ?b)] =>
             let v := eval vm_compute in (bool_decide (a = b)) in
             change (bool_decide (a = b)) with v
         end.

Lemma start_container_run_calls (sc : SessionContext) (m : RunnerMode)
    (output in_data model_path : option string) (ref_data : option loc)
    (st : state) :
  (∀ l, ref_data = Some l → is_Some (store st !! l)) →
  start_container_run sc (value m) output in_data model_path ref_data st =
    (inr (bool_decide (m = LOCAL)),
     {| store := store st;
        trace := trace st ++ container_start sc m output in_data model_path
                               (mapping_of st ref_data) |}).
Proof.
  intros Href.
  unfold start_container_run, container_start, mapping_of.
  rewrite eqb_value.
  destruct m; decide_modes; cbv iota;
    try (unfold ret; rewrite app_nil_r, state_eta; reflexivity).
  rewrite bind_emit, bind_when_emit2, !bind_when_emit.
  destruct ref_data as [lr |].
  - destruct (Href lr eq_refl) as [rd Hlr].
    rewrite bind_assoc.
    erewrite bind_load by (cbn [store]; exact Hlr).
    rewrite !bind_emit. unfold ret.
    cbn [store trace]. simpl. rewrite Hlr. simpl.
    rewrite <- !app_assoc. reflexivity.
  - rewrite bind_ret, !bind_emit. unfold ret.
    cbn [store trace]. simpl.
    rewrite <- !app_assoc. reflexivity.
Qed.

Lemma submit_record_handler_calls (sc : SessionContext) (sv : service)
    (params : option (gmap string param_value)) (action : option string)
    (m : RunnerMode) (data_source : option string)
    (config_ref_data : option loc) (st : state) :
  (∀ l, config_ref_data = Some l → is_Some (store st !! l)) →
  ∃ st',
    submit_record_handler sc sv params action (value m) data_source
      config_ref_data st = (inr tt, st') ∧
    trace st' =
      trace st ++ submission sc sv params action m data_source
                    (default ∅ (mapping_of st config_ref_data)) ∧
    (∀ l rd, store st !! l = Some rd → store st' !! l = Some rd).
Proof.
  intros Hconfig.
  unfold submit_record_handler, submission, mapping_of.
  rewrite of_value_value, eqb_value, !bind_emit.
  destruct config_ref_data as [lc |].
  - destruct (Hconfig lc eq_refl) as [rd Hlc].
    rewrite !bind_ret.
    erewrite bind_load by (cbn [store]; exact Hlc).
    rewrite !bind_emit. unfold emit.
    eexists. split; [reflexivity |]. cbn [store trace].
    split; [| auto].
    simpl. rewrite Hlc. simpl. rewrite <- !app_assoc. reflexivity.
  - unfold ref_data_factory. rewrite bind_alloc, bind_ret.
    erewrite bind_load by (cbn [store]; apply lookup_insert_eq).
    rewrite !bind_emit. unfold emit.
    eexists. split; [reflexivity |]. cbn [store trace].
    split; [simpl; rewrite <- !app_assoc; reflexivity |].
    intros l rd Hl. rewrite lookup_insert_ne; [exact Hl |].
    apply fresh_not_allocated. eauto.
Qed.

Lemma materialize_and_report_calls (sc : SessionContext) (sv : service)
    (m : RunnerMode) (output : option string) (st : state) :
  materialize_and_report sc sv (value m) output (bool_decide (m = LOCAL)) st =
    (if decide (polled_status sv = COMPLETED) then inr tt
     else inl (SystemExit 1),
     {| store := store st;
        trace := trace st ++ materialized m output
                 ++ (if decide (polled_status sv = COMPLETED)
                     then success_report sc sv else failure_report sv) |}).
Proof.
  unfold materialize_and_report, materialized, success_report, failure_report.
  rewrite eqb_value, bind_when_emit, bind_when_emit2.
  destruct (decide (polled_status sv = COMPLETED));
    rewrite !bind_emit; unfold emit, raise; cbn [store trace];
    rewrite <- !app_assoc; reflexivity.
Qed.

(** The calls of [create_and_run_record_handler], in order, for a runner
    that is a member of the enum and references that name objects. *)
Lemma create_and_run_record_handler_calls (sc : SessionContext) (sv : service)
    (params : option (gmap string param_value)) (action : option string)
    (m : RunnerMode) (output in_data model_path data_source : option string)
    (ref_data config_ref_data : option loc) (st : state) :
  (∀ l, ref_data = Some l → is_Some (store st !! l)) →
  (∀ l, config_ref_data = Some l → is_Some (store st !! l)) →
  ∃ st',
    create_and_run_record_handler sc sv params action (value m) output
      in_data model_path data_source ref_data config_ref_data st
    = (if decide (polled_status sv = COMPLETED) then inr tt
       else inl (SystemExit 1), st') ∧
    trace st' =
      trace st
      ++ submission sc sv params action m data_source
           (default ∅ (mapping_of st config_ref_data))
      ++ container_start sc m output in_data model_path (mapping_of st ref_data)
      ++ PollAndPrint (value m) (bool_decide (m = LOCAL))
         :: materialized m output
      ++ (if decide (polled_status sv = COMPLETED)
          then success_report sc sv else failure_report sv).
Proof.
  intros Href Hconfig.
  destruct (submit_record_handler_calls sc sv params action m data_source
              config_ref_data st Hconfig) as (st1 & Hsubmit & Htrace1 & Hframe).
  assert (Href1 : ∀ l, ref_data = Some l → is_Some (store st1 !! l)).
  { intros l Hl. destruct (Href l Hl) as [rd Hrd]. eauto. }
  assert (Hsame : mapping_of st1 ref_data = mapping_of st ref_data).
  { destruct ref_data as [l |]; [| reflexivity].
    destruct (Href l eq_refl) as [rd Hrd]. simpl.
    rewrite Hrd, (Hframe _ _ Hrd). reflexivity. }
  unfold create_and_run_record_handler.
  unfold bind at 1. rewrite Hsubmit.
  unfold bind at 1.
  rewrite (start_container_run_calls sc m output in_data model_path ref_data
             st1 Href1).
  rewrite bind_emit, materialize_and_report_calls.
  eexists. split; [reflexivity |].
  cbn [store trace]. rewrite Htrace1, Hsame.
  rewrite <- !app_assoc. reflexivity.
Qed.

(** C3 (amended): when polling returns with the record handler in any
    status other than COMPLETED, in particular in a failed end state,
    [create_and_run_record_handler] logs the job's errors and its status
    and exits with code 1; before that, and whatever the status, a run
    with an output directory has its artifacts downloaded under CLOUD and
    extracted from the container under LOCAL; nothing is materialized
    only without an output directory or under MANUAL. *)
Theorem failed_run_reported_after_materialization
    (sc : SessionContext) (sv : service)
    (params : option (gmap string param_value)) (action : option string)
    (m : RunnerMode) (output in_data model_path data_source : option string)
    (ref_data config_ref_data : option loc) (st : state)
    (Hfailed : polled_status sv ≠ COMPLETED)
    (Href : ∀ l, ref_data = Some l → is_Some (store st !! l))
    (Hconfig : ∀ l, config_ref_data = Some l → is_Some (store st !! l)) :
  ∃ before st',
    create_and_run_record_handler sc sv params action (value m) output
      in_data model_path data_source ref_data config_ref_data st
    = (inl (SystemExit 1), st') ∧
    trace st' =
      trace st ++ before
      ++ PollAndPrint (value m) (bool_decide (m = LOCAL))
         :: materialized m output ++ failure_report sv ∧
    Forall (λ e, is_materialization e = false) before ∧
    (truthy output = false ∨ m = MANUAL → materialized m output = []) ∧
    (truthy output = true → m = CLOUD →
       materialized m output = [DownloadArtifacts (default "" output)]) ∧
    (truthy output = true → m = LOCAL →
       materialized m output =
         [LogInfo "Extracting record artifacts from the container.";
          ExtractOutputDir (default "" output)]).
Proof.
  destruct (create_and_run_record_handler_calls sc sv params action m output
              in_data model_path data_source ref_data config_ref_data st
              Href Hconfig) as (st' & Hcall & Htrace).
  destruct (decide (polled_status sv = COMPLETED)); [contradiction |].
  eexists (submission sc sv params action m data_source _
           ++ container_start sc m output in_data model_path _), st'.
  split; [exact Hcall |].
  split; [rewrite Htrace, <- !app_assoc; reflexivity |].
  split; [apply nothing_materialized_before_polling |].
  unfold materialized.
  split; [| split].
  - intros [-> | ->]; [reflexivity |]. rewrite !andb_false_r. reflexivity.
  - intros -> ->. reflexivity.
  - intros -> ->. reflexivity.
Qed.

Lemma failed_run_reported_after_materialization_witness :
  ∃ before st',
    create_and_run_record_handler local_only_model failing_job None
      (Some "classify") (value LOCAL) (Some "out") (Some "in.csv")
      (Some "model.tar.gz") (Some LOCAL_) None None initial
    = (inl (SystemExit 1), st') ∧
    trace st' =
      before
      ++ [PollAndPrint (value LOCAL) true;
          LogInfo "Extracting record artifacts from the container.";
          ExtractOutputDir "out"]
      ++ failure_report failing_job.
Proof.
  destruct (failed_run_reported_after_materialization local_only_model
              failing_job None (Some "classify") LOCAL (Some "out")
              (Some "in.csv") (Some "model.tar.gz") (Some LOCAL_) None None
              initial)
    as (before & st' & Hcall & Htrace & _).
  - discriminate.
  - intros l Hl. discriminate Hl.
  - intros l Hl. discriminate Hl.
  - exists before, st'. split; [exact Hcall |]. exact Htrace.
Defined.

(** ** What the service is sent under LOCAL *)

Lemma run_ref_data_local (sc : SessionContext) (sv : service)
    (l : loc) (rd : RefData) (st : state) :
  store st !! l = Some rd →
  run_ref_data sc sv l (value LOCAL) st =
    (inr (fresh (dom (store st))),
     {| store := <[fresh (dom (store st)) :=
                     {| ref_dict := (λ _, LOCAL_) <$> ref_dict rd |}]> (store st);
        trace := trace st |}).
Proof.
  intros Hl. unfold run_ref_data, deepcopy.
  rewrite bind_assoc. erewrite bind_load by exact Hl.
  rewrite bind_alloc.
  erewrite _configure_ref_data_else;
    [| apply lookup_insert_eq | apply andb_false_r | apply andb_false_r].
  cbn [store trace]. rewrite insert_insert_eq. reflexivity.
Qed.

(** The submission the generic run command makes under LOCAL, once the
    parameters have passed validation. *)
Lemma run_local_submission (sc : SessionContext) (sv : service)
    (output in_data model_path : option string)
    (ref_data : gmap string string) (action : option string)
    (param : list (string * string)) (st : state) :
  _validate_params sc (value LOCAL) output model_path None = inr tt →
  ∃ r st' params data_source after,
    run sc sv (value LOCAL) output in_data model_path ref_data action param st
      = (r, st') ∧
    trace st' =
      trace st
      ++ [LogInfo ("Creating record handler for model " +:+ model_id sc +:+ ".");
          CreateRecordHandlerObj;
          Submit params action LOCAL data_source ((λ _, LOCAL_) <$> ref_data)]
      ++ after ∧
    (data_source = None ∨ data_source = Some LOCAL_).
Proof.
  intros Hvalid. unfold run, _check_model_and_runner.
  rewrite eqb_value. decide_modes. rewrite andb_false_r.
  rewrite bind_ret, Hvalid. unfold lift. rewrite bind_ret.
  assert (Hds : ∃ ds,
             (if truthy in_data
              then _configure_data_source sc sv in_data (value LOCAL)
              else ret None) = ret ds ∧ (ds = None ∨ ds = Some LOCAL_)).
  { destruct (truthy in_data); [destruct in_data |]; eauto. }
  destruct Hds as (ds & -> & Hds). rewrite bind_ret.
  unfold ref_data_factory. rewrite bind_alloc.
  set (l1 := fresh (dom (store st))).
  set (st1 := {| store := <[l1 := {| ref_dict := ref_data |}]> (store st);
                 trace := trace st |}).
  assert (Hl1 : store st1 !! l1 = Some {| ref_dict := ref_data |})
    by apply lookup_insert_eq.
  unfold bind at 1. rewrite (run_ref_data_local sc sv l1 _ st1 Hl1).
  set (l2 := fresh (dom (store st1))).
  set (st2 := {| store := _; trace := trace st1 |}).
  assert (Hl2 : store st2 !! l2 = Some {| ref_dict := (λ _, LOCAL_) <$> ref_data |})
    by apply lookup_insert_eq.
  assert (Hl12 : is_Some (store st2 !! l1)).
  { exists {| ref_dict := ref_data |}. unfold st2. cbn [store].
    rewrite lookup_insert_ne; [exact Hl1 |].
    apply fresh_not_allocated. eauto. }
  assert (Htrace2 : trace st2 = trace st) by reflexivity.
  assert (Hmap : mapping_of st2 (Some l2) = Some ((λ _, LOCAL_) <$> ref_data)).
  { unfold mapping_of. cbn [mbind option_bind]. rewrite Hl2. reflexivity. }
  clearbody st2. clearbody l2. clearbody st1. clearbody l1.
  edestruct (create_and_run_record_handler_calls sc sv) as (st' & Hcall & Htrace);
    [| | rewrite Hcall].
  - intros l [= <-]. exact Hl12.
  - intros l [= <-]. eauto.
  - eexists _, st', _, ds, _. split; [reflexivity |].
    split; [| exact Hds].
    rewrite Htrace, Hmap, Htrace2. unfold submission. cbn [default app].
    reflexivity.
Qed.

(** C4: under LOCAL the data-source resolver answers every path with the
    sentinel, whatever the path and without calling anything, so the
    answer is the path only if the path is the sentinel itself; the
    ref-data resolver, calling nothing either, leaves the mapping with
    the keys it had and the sentinel under each of them; and the
    submission of the generic run command then carries the sentinel, or
    nothing, as data source and the sentinel under every reference key. *)
Theorem local_resolution_gives_sentinel (sc : SessionContext) (sv : service)
    (path : string) (l : loc) (rd : RefData) (st : state)
    (Hl : store st !! l = Some rd) :
  _configure_data_source sc sv (Some path) (value LOCAL) st
    = (inr (Some LOCAL_), st) ∧
  (path ≠ LOCAL_ →
     (_configure_data_source sc sv (Some path) (value LOCAL) st).1
       ≠ inr (Some path)) ∧
  (∃ rd' st',
     _configure_ref_data sc sv l (value LOCAL) st = (inr l, st') ∧
     trace st' = trace st ∧
     store st' !! l = Some rd' ∧
     dom (ref_dict rd') = dom (ref_dict rd) ∧
     (∀ key, is_Some (ref_dict rd !! key) → ref_dict rd' !! key = Some LOCAL_) ∧
     (∀ key v, ref_dict rd' !! key = Some v → v = LOCAL_)) ∧
  (∀ output in_data model_path action param,
     _validate_params sc (value LOCAL) output model_path None = inr tt →
     ∃ r st' params data_source after,
       run sc sv (value LOCAL) output in_data model_path (ref_dict rd)
         action param st = (r, st') ∧
       trace st' =
         trace st
         ++ [LogInfo ("Creating record handler for model " +:+ model_id sc +:+ ".");
             CreateRecordHandlerObj;
             Submit params action LOCAL data_source
               ((λ _, LOCAL_) <$> ref_dict rd)]
         ++ after ∧
       (data_source = None ∨ data_source = Some LOCAL_)).
Proof.
  split; [reflexivity |].
  split; [simpl; congruence |].
  split; [| intros; apply run_local_submission; assumption].
  eexists _, _. split.
  { apply (_configure_ref_data_else sc sv l rd);
      [exact Hl | apply andb_false_r | apply andb_false_r]. }
  simpl. split; [reflexivity |].
  split; [apply lookup_insert_eq |]. simpl.
  split; [apply dom_fmap_L |].
  split.
  - intros key [v Hv]. rewrite lookup_fmap, Hv. reflexivity.
  - intros key v. rewrite lookup_fmap.
    destruct (ref_dict rd !! key); simpl; congruence.
Qed.

Lemma local_resolution_gives_sentinel_witness :
  _configure_data_source local_only_model failing_job (Some "/data/in.csv")
    (value LOCAL) one_object
    = (inr (Some LOCAL_), one_object) ∧
  ∃ rd' st',
    _configure_ref_data local_only_model failing_job 1%positive
      (value LOCAL) one_object = (inr 1%positive, st') ∧
    store st' !! 1%positive = Some rd' ∧
    ref_dict rd' !! "train" = Some LOCAL_.
Proof.
  destruct (local_resolution_gives_sentinel local_only_model failing_job
              "/data/in.csv" 1%positive {| ref_dict := two_local_files |}
              one_object eq_refl)
    as (Hdata & _ & (rd' & st' & Hcall & _ & Hstore & _ & Hkeys & _) & _).
  split; [exact Hdata |].
  exists rd', st'. split; [exact Hcall |]. split; [exact Hstore |].
  apply Hkeys. exists "/data/train.csv". reflexivity.
Defined.

(** ** The validator, rule by rule *)

(** X9: for the three runners the validator accepts exactly these
    combinations: under CLOUD no model path; under LOCAL an output
    directory and a model path exactly when the model is not a cloud
    model; under MANUAL neither output nor model path.  A runner outside
    the enum is accepted whatever the flags, and the input data is never
    looked at. *)
Theorem validate_params_accepts (sc : SessionContext)
    (output model_path in_data : option string) :
  (_validate_params sc (value CLOUD) output model_path in_data = inr tt
   ↔ truthy model_path = false) ∧
  (_validate_params sc (value LOCAL) output model_path in_data = inr tt
   ↔ truthy output = true ∧ truthy model_path = negb (is_cloud_model sc)) ∧
  (_validate_params sc (value MANUAL) output model_path in_data = inr tt
   ↔ truthy output = false ∧ truthy model_path = false) ∧
  (∀ runner, of_value runner = None →
     _validate_params sc runner output model_path in_data = inr tt) ∧
  (∀ runner other,
     _validate_params sc runner output model_path other
     = _validate_params sc runner output model_path in_data).
Proof.
  unfold _validate_params.
  split; [| split; [| split; [| split]]].
  - destruct (is_cloud_model sc), (truthy output), (truthy model_path);
      simpl; split; congruence.
  - destruct (is_cloud_model sc), (truthy output), (truthy model_path);
      simpl;
      (split;
       [ intros H; first [discriminate H | split; reflexivity]
       | intros [H1 H2];
         first [discriminate H1 | discriminate H2 | reflexivity] ]).
  - destruct (is_cloud_model sc), (truthy output), (truthy model_path);
      simpl;
      (split;
       [ intros H; first [discriminate H | split; reflexivity]
       | intros [H1 H2];
         first [discriminate H1 | discriminate H2 | reflexivity] ]).
  - intros runner Hnone. unfold of_value in Hnone.
    destruct (String.eqb runner (value CLOUD)); [discriminate |].
    destruct (String.eqb runner (value LOCAL)); [discriminate |].
    destruct (String.eqb runner (value MANUAL)); [discriminate |].
    rewrite !andb_false_r. reflexivity.
  - reflexivity.
Qed.

(** X10: a rejected combination is reported as a BadOptionUsage under one
    flag, fixed by the runner and the first rule broken: --model-path
    under CLOUD, --runner under MANUAL, and under LOCAL --output when the
    output directory is missing and the model-path rule before it is kept,
    --model-path otherwise. *)
Theorem validate_params_reports_flag (sc : SessionContext) (m : RunnerMode)
    (output model_path in_data : option string) (e : exn)
    (Hrejected : _validate_params sc (value m) output model_path in_data = inl e) :
  ∃ message, e = BadOptionUsage (reported_flag sc m output model_path) message.
Proof.
  unfold _validate_params, reported_flag in *.
  destruct m, (is_cloud_model sc), (truthy output), (truthy model_path);
    simpl in Hrejected; inversion Hrejected; subst; simpl; eauto.
Qed.

Lemma validate_params_reports_flag_witness :
  ∃ message,
    BadOptionUsage "--runner"
      "--runner manual cannot be used together with any of --output, --model-path."
    = BadOptionUsage
        (reported_flag cloud_model MANUAL (Some "out") (Some "model.tar.gz"))
        message.
Proof.
  exact (validate_params_reports_flag cloud_model MANUAL (Some "out")
           (Some "model.tar.gz") None _ eq_refl).
Defined.

(** X11: for a model that is not a cloud model, a command asked to run in
    the cloud does exactly what it does when asked to run locally, after
    logging the override: the same result, the same objects and the same
    calls. *)
Theorem cloud_request_runs_as_local (sc : SessionContext) (sv : service)
    (output in_data model_path : option string) (st : state)
    (Hlocal_model : is_cloud_model sc = false) :
  (∀ action params,
     records_command action params sc sv (value CLOUD) output in_data
       model_path st
     = records_command action params sc sv (value LOCAL) output in_data
         model_path (logged st (override_log sc))) ∧
  (∀ ref_data action param,
     run sc sv (value CLOUD) output in_data model_path ref_data action param st
     = run sc sv (value LOCAL) output in_data model_path ref_data action param
         (logged st (override_log sc))).
Proof.
  split; intros.
  - unfold records_command, _check_model_and_runner, logged, override_log.
    rewrite Hlocal_model. simpl negb. rewrite !eqb_value. decide_modes.
    cbn [andb]. rewrite bind_assoc, bind_emit, bind_assoc, bind_emit, !bind_ret.
    cbn [store trace]. rewrite <- app_assoc. reflexivity.
  - unfold run, _check_model_and_runner, logged, override_log.
    rewrite Hlocal_model. simpl negb. rewrite !eqb_value. decide_modes.
    cbn [andb]. rewrite bind_assoc, bind_emit, bind_assoc, bind_emit, !bind_ret.
    cbn [store trace]. rewrite <- app_assoc. reflexivity.
Qed.

Lemma cloud_request_runs_as_local_witness :
  transform local_only_model failing_job (value CLOUD) (Some "out")
    (Some "in.csv") (Some "model.tar.gz") initial
  = transform local_only_model failing_job (value LOCAL) (Some "out")
      (Some "in.csv") (Some "model.tar.gz")
      (logged initial (override_log local_only_model)).
Proof.
  destruct (cloud_request_runs_as_local local_only_model failing_job
              (Some "out") (Some "in.csv") (Some "model.tar.gz") initial
              eq_refl) as [Hcmd _].
  apply Hcmd.
Defined.

(** ** Reference data under CLOUD and MANUAL *)

Lemma logged_logged (st : state) (evs1 evs2 : list event) :
  logged (logged st evs1) evs2 = logged st (evs1 ++ evs2).
Proof. unfold logged. simpl. rewrite app_assoc. reflexivity. Qed.

Lemma logged_nil (st : state) : logged st [] = st.
Proof. unfold logged. rewrite app_nil_r. apply state_eta. Qed.

Lemma upload_ok (sv : service) (path uri : string) (st : state) :
  upload_artifact sv path = Some uri →
  upload sv path st = (inr uri, logged st [UploadArtifact path]).
Proof. intros H. unfold upload, bind, emit. rewrite H. reflexivity. Qed.

Lemma upload_fails (sv : service) (path : string) (st : state) :
  upload_artifact sv path = None →
  upload sv path st = (inl (DataSourceError path), logged st [UploadArtifact path]).
Proof. intros H. unfold upload, bind, emit. rewrite H. reflexivity. Qed.

(** The mapping the cloud loop builds when every upload succeeds. *)
Lemma upload_items_ok (sv : service) (items : list (string * string)) :
  ∀ (acc : gmap string string) (st : state),
    Forall (λ kv, is_Some (upload_artifact sv kv.2)) items →
    upload_items sv items acc st =
      (inr (foldl (λ d kv, <[kv.1 := default "" (upload_artifact sv kv.2)]> d)
              acc items),
       logged st (map (λ kv, UploadArtifact kv.2) items)).
Proof.
  induction items as [| [key path] items IH]; intros acc st Hok.
  - simpl. rewrite logged_nil. reflexivity.
  - apply Forall_cons in Hok as [[uri Huri] Hok]. simpl in Huri.
    simpl upload_items. unfold bind at 1.
    rewrite (upload_ok _ _ _ _ Huri), (IH _ _ Hok), logged_logged.
    simpl. rewrite Huri. reflexivity.
Qed.

(** The cloud loop stops at the first upload that raises. *)
Lemma upload_items_fails (sv : service) (items : list (string * string)) :
  ∀ (acc : gmap string string) (st : state),
    Exists (λ kv, upload_artifact sv kv.2 = None) items →
    ∃ key path st',
      upload_items sv items acc st = (inl (DataSourceError path), st') ∧
      store st' = store st ∧
      (key, path) ∈ items ∧ upload_artifact sv path = None.
Proof.
  induction items as [| [key path] items IH]; intros acc st Hbad.
  - inversion Hbad.
  - simpl upload_items. unfold bind at 1.
    destruct (upload_artifact sv path) as [uri |] eqn:Hup.
    + rewrite (upload_ok _ _ _ _ Hup).
      apply Exists_cons in Hbad as [Hbad | Hbad];
        [simpl in Hbad; congruence |].
      destruct (IH (<[key := uri]> acc) (logged st [UploadArtifact path]) Hbad)
        as (key' & path' & st' & Hrun & Hstore & Hin & Hnone).
      exists key', path', st'. rewrite Hrun.
      split; [reflexivity |]. split; [exact Hstore |].
      split; [right; exact Hin | exact Hnone].
    + rewrite (upload_fails _ _ _ Hup).
      exists key, path, (logged st [UploadArtifact path]).
      split; [reflexivity |]. split; [reflexivity |].
      split; [left | exact Hup].
Qed.

Lemma uploaded_lookup (f : string → string) (items : list (string * string)) :
  ∀ (acc : gmap string string) (key : string),
    NoDup items.*1 →
    foldl (λ d kv, <[kv.1 := f kv.2]> d) acc items !! key =
      match (list_to_map items : gmap string string) !! key with
      | Some path => Some (f path)
      | None => acc !! key
      end.
Proof.
  induction items as [| [k path] items IH]; intros acc key Hnodup.
  - reflexivity.
  - change (((k, path) :: items).*1) with (k :: items.*1) in Hnodup.
    apply NoDup_cons in Hnodup as [Hfresh Hnodup].
    simpl. rewrite (IH _ _ Hnodup).
    destruct (decide (key = k)) as [-> | Hne].
    + rewrite (not_elem_of_list_to_map_1 _ _ Hfresh).
      rewrite !lookup_insert_eq. reflexivity.
    + rewrite !lookup_insert_ne by congruence. reflexivity.
Qed.

(** X12: under CLOUD, when every locator of a non-empty mapping uploads,
    the resolver uploads each of them once, leaves the object it was given
    as it is, and returns a new object with the same keys, each holding
    what its upload returned. *)
Theorem cloud_ref_data_uploaded (sc : SessionContext) (sv : service)
    (l : loc) (rd : RefData) (st : state)
    (Hl : store st !! l = Some rd)
    (Hnonempty : ref_dict rd ≠ ∅)
    (Huploads : ∀ key path, ref_dict rd !! key = Some path →
                            is_Some (upload_artifact sv path)) :
  let uploaded := omap (upload_artifact sv) (ref_dict rd) in
  let l' := fresh (dom (store st)) in
  _configure_ref_data sc sv l (value CLOUD) st =
    (inr l',
     {| store := <[l' := {| ref_dict := uploaded |}]> (store st);
        trace := trace st ++ LogInfo "Uploading ref data..."
                 :: map (λ kv, UploadArtifact kv.2) (map_to_list (ref_dict rd)) |}) ∧
  l' ≠ l ∧
  dom uploaded = dom (ref_dict rd) ∧
  (∀ key path, ref_dict rd !! key = Some path →
     uploaded !! key = upload_artifact sv path).
Proof.
  intros uploaded l'.
  assert (Hitems : Forall (λ kv, is_Some (upload_artifact sv kv.2))
                     (map_to_list (ref_dict rd))).
  { apply Forall_forall. intros [key path] Hin.
    apply elem_of_map_to_list in Hin. eauto. }
  assert (Hlookup : ∀ key path, ref_dict rd !! key = Some path →
                                uploaded !! key = upload_artifact sv path).
  { intros key path Hkey. unfold uploaded. rewrite lookup_omap, Hkey. reflexivity. }
  split; [| split; [apply fresh_not_allocated; eauto | split; [| exact Hlookup]]].
  - unfold _configure_ref_data. erewrite bind_load by exact Hl.
    assert (Hne : is_empty rd = false)
      by (unfold is_empty; apply bool_decide_eq_false_2; exact Hnonempty).
    rewrite Hne, !eqb_value. decide_modes. cbn [negb andb].
    rewrite bind_emit. unfold bind. rewrite (upload_items_ok _ _ _ _ Hitems).
    unfold ref_data_factory, alloc, logged. cbn [store trace].
    rewrite <- app_assoc. simpl app.
    do 3 f_equal. f_equal. apply map_eq. intros key.
    rewrite (uploaded_lookup (λ path, default "" (upload_artifact sv path)))
      by apply NoDup_fst_map_to_list.
    rewrite list_to_map_to_list, lookup_empty.
    fold uploaded.
    destruct (ref_dict rd !! key) as [path |] eqn:Hkey.
    + rewrite (Hlookup _ _ Hkey).
      destruct (Huploads _ _ Hkey) as [uri ->]. reflexivity.
    + unfold uploaded. rewrite lookup_omap, Hkey. reflexivity.
  - apply set_eq. intros key. rewrite !elem_of_dom. split.
    + intros [uri Huri]. unfold uploaded in Huri. rewrite lookup_omap in Huri.
      destruct (ref_dict rd !! key); [eauto | discriminate].
    + intros [path Hkey]. rewrite (Hlookup _ _ Hkey). eauto.
Qed.

Lemma cloud_ref_data_uploaded_witness :
  ∃ st',
    _configure_ref_data cloud_model completing_job 1%positive (value CLOUD)
      one_object = (inr 2%positive, st') ∧
    store st' !! 2%positive
      = Some {| ref_dict := omap (upload_artifact completing_job) two_local_files |}.
Proof.
  destruct (cloud_ref_data_uploaded cloud_model completing_job 1%positive
              {| ref_dict := two_local_files |} one_object)
    as (Hcall & _).
  - reflexivity.
  - intros Hempty.
    assert (H : two_local_files !! "train" = None)
      by (simpl in Hempty; rewrite Hempty; apply lookup_empty).
    vm_compute in H. discriminate H.
  - intros key path _. eexists. reflexivity.
  - eexists. split; [exact Hcall |]. apply lookup_insert_eq.
Defined.

(** X13: under CLOUD, when a locator of the mapping does not upload, the
    resolver raises the data-source error of a locator of the mapping
    whose upload raised, and no object is created or changed. *)
Theorem cloud_ref_data_upload_failure (sc : SessionContext) (sv : service)
    (l : loc) (rd : RefData) (st : state) (key path : string)
    (Hl : store st !! l = Some rd)
    (Hkey : ref_dict rd !! key = Some path)
    (Hfails : upload_artifact sv path = None) :
  ∃ key' path' st',
    _configure_ref_data sc sv l (value CLOUD) st
      = (inl (DataSourceError path'), st') ∧
    store st' = store st ∧
    ref_dict rd !! key' = Some path' ∧
    upload_artifact sv path' = None.
Proof.
  assert (Hne : is_empty rd = false).
  { unfold is_empty. apply bool_decide_eq_false_2. intros Hempty.
    rewrite Hempty, lookup_empty in Hkey. discriminate Hkey. }
  assert (Hbad : Exists (λ kv, upload_artifact sv kv.2 = None)
                   (map_to_list (ref_dict rd))).
  { apply Exists_exists. exists (key, path).
    split; [apply elem_of_map_to_list; exact Hkey | exact Hfails]. }
  destruct (upload_items_fails sv _ ∅
              (logged st [LogInfo "Uploading ref data..."]) Hbad)
    as (key' & path' & st' & Hrun & Hstore & Hin & Hnone).
  exists key', path', st'.
  split; [| split; [exact Hstore | split; [| exact Hnone]]].
  - unfold _configure_ref_data. erewrite bind_load by exact Hl.
    rewrite Hne, !eqb_value. decide_modes. cbn [negb andb].
    rewrite bind_emit. unfold bind. fold (logged st [LogInfo "Uploading ref data..."]).
    rewrite Hrun. reflexivity.
  - apply elem_of_map_to_list. exact Hin.
Qed.

Lemma cloud_ref_data_upload_failure_witness :
  ∃ key' path' st',
    _configure_ref_data cloud_model unreachable_storage 1%positive
      (value CLOUD) one_object = (inl (DataSourceError path'), st') ∧
    store st' = store one_object ∧
    two_local_files !! key' = Some path'.
Proof.
  destruct (cloud_ref_data_upload_failure cloud_model unreachable_storage
              1%positive {| ref_dict := two_local_files |} one_object
              "train" "/data/train.csv" eq_refl eq_refl eq_refl)
    as (key' & path' & st' & Hcall & Hstore & Hin & _).
  exists key', path', st'. auto.
Defined.

(** X14: an empty mapping, under every runner, and every mapping under
    MANUAL go through untouched: the resolver returns the very object it
    was given, with the locators it had, and calls nothing. *)
Theorem ref_data_passes_through (sc : SessionContext) (sv : service)
    (l : loc) (rd : RefData) (runner : string) (st : state)
    (Hl : store st !! l = Some rd)
    (Hpass : ref_dict rd = ∅ ∨ runner = value MANUAL) :
  _configure_ref_data sc sv l runner st = (inr l, st).
Proof.
  destruct (decide (ref_dict rd = ∅)) as [Hempty | Hnonempty].
  - assert (He : is_empty rd = true)
      by (unfold is_empty; apply bool_decide_eq_true_2; exact Hempty).
    rewrite (_configure_ref_data_else sc sv l rd runner st Hl)
      by (rewrite He; reflexivity).
    rewrite Hempty, fmap_empty, <- Hempty.
    replace {| ref_dict := ref_dict rd |} with rd by (destruct rd; reflexivity).
    rewrite insert_id by exact Hl. rewrite state_eta. reflexivity.
  - destruct Hpass as [Hempty | ->]; [contradiction |].
    unfold _configure_ref_data. erewrite bind_load by exact Hl.
    unfold is_empty. rewrite bool_decide_eq_false_2 by exact Hnonempty.
    reflexivity.
Qed.

Lemma ref_data_passes_through_witness :
  _configure_ref_data local_only_model failing_job 1%positive (value MANUAL)
    one_object = (inr 1%positive, one_object).
Proof.
  apply (ref_data_passes_through local_only_model failing_job 1%positive
           {| ref_dict := two_local_files |}).
  - reflexivity.
  - right. reflexivity.
Defined.

(** ** The calls of a record-handler run *)

Ltac by_segments sc sv m output in_data model_path ref :=
  unfold calls_of_run;
  apply Forall_app; split;
    [unfold submission; simpl; repeat constructor |];
  apply Forall_app; split;
    [unfold container_start;
     destruct (bool_decide (m = LOCAL)), (debug sc), (truthy output),
       (truthy in_data), (truthy model_path), ref;
     simpl; repeat constructor |];
  apply Forall_cons; split; [reflexivity |];
  apply Forall_app; split;
    [ unfold materialized;
      destruct (truthy output), (bool_decide (m = CLOUD)),
        (bool_decide (m = LOCAL)); simpl; repeat constructor
    | unfold success_report, failure_report;
      destruct (decide (polled_status sv = COMPLETED));
      simpl; repeat first [contradiction | constructor] ].

Lemma calls_of_run_upload_nothing sc sv params action m output in_data
    model_path data_source ref config :
  Forall (λ e, is_upload e = false)
    (calls_of_run sc sv params action m output in_data model_path
       data_source ref config).
Proof. by_segments sc sv m output in_data model_path ref. Qed.

Lemma calls_of_run_exit_only_on_failure sc sv params action m output in_data
    model_path data_source ref config :
  polled_status sv = COMPLETED →
  Forall (λ e, is_exit e = false)
    (calls_of_run sc sv params action m output in_data model_path
       data_source ref config).
Proof. intros Hdone. by_segments sc sv m output in_data model_path ref. Qed.

Lemma calls_of_run_last sc sv params action m output in_data
    model_path data_source ref config :
  last (calls_of_run sc sv params action m output in_data model_path
          data_source ref config)
  = Some (if decide (polled_status sv = COMPLETED)
          then LogInfo "Done." else Exit 1).
Proof.
  unfold calls_of_run, success_report, failure_report.
  destruct (decide (polled_status sv = COMPLETED)).
  - change [LogInfo _; LogInfo _; LogInfo "Done."]
      with ([LogInfo
               ("For a more detailed view, you can download record artifacts using the CLI command "
                +:+ "gretel records get --project " +:+ project_name sc
                +:+ " --model-id " +:+ model_id sc
                +:+ " --record-handler-id " +:+ record_id sv +:+ " --output .");
             LogInfo ("Billing estimate" +:+ billing_details sv +:+ ".")]
            ++ [LogInfo "Done."]).
    rewrite app_comm_cons, !app_assoc. apply last_snoc.
  - change [LogError _; LogError _; LogError _; Exit 1]
      with ([LogError (Text "The record command failed with the following error.");
             LogError (JobErrors (errors sv));
             LogError (StatusIs (polled_status sv)
                         ". Please scroll back through the logs for more details.")]
            ++ [Exit 1]).
    rewrite app_comm_cons, !app_assoc. apply last_snoc.
Qed.

(** X15: for a runner of the enum, [create_and_run_record_handler] makes
    these calls and no other, in this order: the creation and submission
    with the cancel clean-up registered right after, the start of the
    container, the polling, the fetching of the artifacts, the report.
    It returns exactly when the status is COMPLETED and otherwise exits
    with code 1, the exit being the last call. *)
Theorem record_handler_run_calls (sc : SessionContext) (sv : service)
    (params : option (gmap string param_value)) (action : option string)
    (m : RunnerMode) (output in_data model_path data_source : option string)
    (ref_data config_ref_data : option loc) (st : state)
    (Href : ∀ l, ref_data = Some l → is_Some (store st !! l))
    (Hconfig : ∀ l, config_ref_data = Some l → is_Some (store st !! l)) :
  let '(r, st') :=
    create_and_run_record_handler sc sv params action (value m) output
      in_data model_path data_source ref_data config_ref_data st in
  let calls := calls_of_run sc sv params action m output in_data model_path
                 data_source (mapping_of st ref_data)
                 (mapping_of st config_ref_data) in
  trace st' = trace st ++ calls ∧
  (polled_status sv = COMPLETED →
     r = inr tt ∧ Forall (λ e, is_exit e = false) calls ∧
     last calls = Some (LogInfo "Done.")) ∧
  (polled_status sv ≠ COMPLETED →
     r = inl (SystemExit 1) ∧ last calls = Some (Exit 1)).
Proof.
  destruct (create_and_run_record_handler_calls sc sv params action m output
              in_data model_path data_source ref_data config_ref_data st
              Href Hconfig) as (st' & -> & Htrace).
  cbv zeta. split; [exact Htrace |].
  rewrite calls_of_run_last.
  destruct (decide (polled_status sv = COMPLETED)) as [Hdone | Hnot].
  - split; [| intros Hne; contradiction]. intros _.
    split; [reflexivity |].
    split; [apply calls_of_run_exit_only_on_failure; exact Hdone | reflexivity].
  - split; [intros Hdone; contradiction |]. intros _.
    split; reflexivity.
Qed.

Lemma record_handler_run_calls_witness :
  let '(r, st') :=
    create_and_run_record_handler cloud_model completing_job None
      (Some "transform") (value CLOUD) (Some "out") (Some "in.csv") None
      (Some "gretel_in.csv") None None initial in
  r = inr tt ∧ last (trace st') = Some (LogInfo "Done.").
Proof.
  pose proof (record_handler_run_calls cloud_model completing_job None
                (Some "transform") CLOUD (Some "out") (Some "in.csv") None
                (Some "gretel_in.csv") None None initial) as H.
  destruct (create_and_run_record_handler cloud_model completing_job None
              (Some "transform") (value CLOUD) (Some "out") (Some "in.csv")
              None (Some "gretel_in.csv") None None initial) as [r st'].
  destruct H as (Htrace & Hdone & _);
    [intros l Hl; discriminate Hl | intros l Hl; discriminate Hl |].
  destruct (Hdone eq_refl) as (Hr & _ & Hlast).
  split; [exact Hr |]. rewrite Htrace. exact Hlast.
Defined.


(** X17: a runner outside the enum stops the run with ValueError after
    the record-handler object is created and before anything is
    submitted: the creation is the only call beside its log line. *)
Theorem unknown_runner_stops_before_submission (sc : SessionContext)
    (sv : service) (params : option (gmap string param_value))
    (action : option string) (runner : string)
    (output in_data model_path data_source : option string)
    (ref_data config_ref_data : option loc) (st : state)
    (Hunknown : of_value runner = None) :
  let '(r, st') :=
    create_and_run_record_handler sc sv params action runner output in_data
      model_path data_source ref_data config_ref_data st in
  r = inl ValueError ∧
  trace st' =
    trace st ++ [LogInfo ("Creating record handler for model " +:+ model_id sc +:+ ".");
                 CreateRecordHandlerObj].
Proof.
  assert (Hsubmit : ∃ st',
            submit_record_handler sc sv params action runner data_source
              config_ref_data st = (inl ValueError, st') ∧
            trace st' =
              trace st ++ [LogInfo ("Creating record handler for model "
                                    +:+ model_id sc +:+ ".");
                           CreateRecordHandlerObj]).
  { unfold submit_record_handler. rewrite !bind_emit.
    destruct config_ref_data as [lc |].
    - rewrite bind_ret, Hunknown. unfold bind, raise.
      eexists. split; [reflexivity |]. cbn [trace].
      rewrite <- app_assoc. reflexivity.
    - unfold ref_data_factory. rewrite bind_alloc, Hunknown. unfold bind, raise.
      eexists. split; [reflexivity |]. cbn [trace].
      rewrite <- app_assoc. reflexivity. }
  destruct Hsubmit as (st' & Hsubmit & Htrace).
  unfold create_and_run_record_handler, bind at 1. rewrite Hsubmit.
  split; [reflexivity | exact Htrace].
Qed.

Lemma unknown_runner_stops_before_submission_witness :
  (create_and_run_record_handler cloud_model completing_job None
     (Some "transform") "hybrid" (Some "out") (Some "in.csv") None
     (Some "gretel_in.csv") None None initial).1 = inl ValueError.
Proof.
  pose proof (unknown_runner_stops_before_submission cloud_model
                completing_job None (Some "transform") "hybrid" (Some "out")
                (Some "in.csv") None (Some "gretel_in.csv") None None initial
                eq_refl) as H.
  destruct (create_and_run_record_handler cloud_model completing_job None
              (Some "transform") "hybrid" (Some "out") (Some "in.csv") None
              (Some "gretel_in.csv") None None initial) as [r st'].
  destruct H as [Hr _]. exact Hr.
Defined.

(** ** The commands, end to end *)

Lemma validate_params_accepted_cloud (sc : SessionContext)
    (output model_path in_data : option string) :
  truthy model_path = false →
  _validate_params sc (value CLOUD) output model_path in_data = inr tt.
Proof.
  intros Hpath. unfold _validate_params. rewrite Hpath.
  destruct (is_cloud_model sc), (truthy output); reflexivity.
Qed.

Lemma records_command_validated (action : string)
    (params : option (gmap string param_value))
    (sc : SessionContext) (sv : service) (m : RunnerMode)
    (output in_data model_path : option string) (st : state) :
  negb (is_cloud_model sc) && bool_decide (m = CLOUD) = false →
  records_command action params sc sv (value m) output in_data model_path st =
    match _validate_params sc (value m) output model_path in_data with
    | inl e => (inl e, st)
    | inr _ =>
        bind (_configure_data_source sc sv in_data (value m))
          (λ data_source,
             create_and_run_record_handler sc sv params (Some action) (value m)
               output in_data model_path data_source None None) st
    end.
Proof.
  intros Hkeep. unfold records_command, _check_model_and_runner.
  rewrite eqb_value, Hkeep, bind_ret.
  destruct (_validate_params sc (value m) output model_path in_data) as [e | []];
    reflexivity.
Qed.

(** X18: under CLOUD, a command on a cloud model uploads its input before
    the record handler is created: when the upload raises, the command
    stops with the data-source error and nothing is created or submitted;
    when it returns, the submission carries what it returned as the data
    source. *)
Theorem cloud_input_uploaded_before_creation (sc : SessionContext)
    (sv : service) (action : string) (params : option (gmap string param_value))
    (output model_path : option string) (path : string) (st : state)
    (Hcloud_model : is_cloud_model sc = true)
    (Hno_model_path : truthy model_path = false) :
  let uploading :=
    [LogInfo ("Uploading input artifact " +:+ path); UploadArtifact path] in
  let '(r, st') :=
    records_command action params sc sv (value CLOUD) output (Some path)
      model_path st in
  match upload_artifact sv path with
  | None =>
      r = inl (DataSourceError path) ∧ st' = logged st uploading ∧
      Forall (λ e, is_creation e = false) uploading
  | Some uri =>
      trace st' =
        trace st ++ uploading
        ++ calls_of_run sc sv params (Some action) CLOUD output (Some path)
             model_path (Some uri) None None
  end.
Proof.
  intros uploading.
  rewrite records_command_validated by (rewrite Hcloud_model; reflexivity).
  assert (Hvalid : _validate_params sc (value CLOUD) output model_path (Some path)
                   = inr tt).
  { apply validate_params_accepted_cloud. exact Hno_model_path. }
  rewrite Hvalid.
  unfold _configure_data_source. rewrite !eqb_value. decide_modes. cbv iota.
  rewrite bind_assoc, bind_emit, bind_assoc. unfold bind at 1.
  fold (logged st [LogInfo ("Uploading input artifact " +:+ path)]).
  destruct (upload_artifact sv path) as [uri |] eqn:Hup.
  - rewrite (upload_ok _ _ _ _ Hup), logged_logged, bind_ret.
    simpl app. fold uploading.
    destruct (create_and_run_record_handler_calls sc sv params (Some action)
                CLOUD output (Some path) model_path (Some uri) None None
                (logged st uploading))
      as (st' & -> & Htrace);
      [intros l Hl; discriminate Hl | intros l Hl; discriminate Hl |].
    rewrite Htrace. unfold logged. cbn [trace]. rewrite <- app_assoc.
    reflexivity.
  - rewrite (upload_fails _ _ _ Hup), logged_logged.
    simpl app. fold uploading.
    split; [reflexivity |]. split; [reflexivity |]. repeat constructor.
Qed.

Lemma cloud_input_uploaded_before_creation_witness :
  transform cloud_model unreachable_storage (value CLOUD) (Some "out")
    (Some "in.csv") None initial
  = (inl (DataSourceError "in.csv"),
     logged initial [LogInfo "Uploading input artifact in.csv";
                     UploadArtifact "in.csv"]).
Proof.
  pose proof (cloud_input_uploaded_before_creation cloud_model
                unreachable_storage "transform" None (Some "out") None
                "in.csv" initial eq_refl eq_refl) as H.
  unfold transform.
  destruct (records_command "transform" None cloud_model unreachable_storage
              (value CLOUD) (Some "out") (Some "in.csv") None initial)
    as [r st'].
  destruct H as (-> & -> & _). reflexivity.
Defined.

(** The generic run command under LOCAL, once validation has passed. *)
Lemma run_local_calls (sc : SessionContext) (sv : service)
    (output in_data model_path : option string)
    (ref_data : gmap string string) (action : option string)
    (param : list (string * string)) (st : state) :
  _validate_params sc (value LOCAL) output model_path None = inr tt →
  ∃ r st',
    run sc sv (value LOCAL) output in_data model_path ref_data action param st
      = (r, st') ∧
    trace st' =
      trace st
      ++ calls_of_run sc sv (extra_params_of param) action LOCAL output
           in_data model_path
           (if truthy in_data then Some LOCAL_ else None)
           (Some ref_data) (Some ((λ _, LOCAL_) <$> ref_data)).
Proof.
  intros Hvalid. unfold run, _check_model_and_runner.
  rewrite eqb_value. decide_modes. rewrite andb_false_r.
  rewrite bind_ret, Hvalid. unfold lift. rewrite bind_ret.
  assert (Hds : (if truthy in_data
                 then _configure_data_source sc sv in_data (value LOCAL)
                 else ret None)
                = ret (if truthy in_data then Some LOCAL_ else None)).
  { destruct in_data as [path |]; [| reflexivity].
    destruct (truthy (Some path)); reflexivity. }
  rewrite Hds, bind_ret.
  unfold ref_data_factory. rewrite bind_alloc.
  set (l1 := fresh (dom (store st))).
  set (st1 := {| store := <[l1 := {| ref_dict := ref_data |}]> (store st);
                 trace := trace st |}).
  assert (Hl1 : store st1 !! l1 = Some {| ref_dict := ref_data |})
    by apply lookup_insert_eq.
  unfold bind at 1. rewrite (run_ref_data_local sc sv l1 _ st1 Hl1).
  set (l2 := fresh (dom (store st1))).
  set (st2 := {| store := _; trace := trace st1 |}).
  assert (Hl2 : store st2 !! l2 = Some {| ref_dict := (λ _, LOCAL_) <$> ref_data |})
    by apply lookup_insert_eq.
  assert (Hl12 : store st2 !! l1 = Some {| ref_dict := ref_data |}).
  { unfold st2. cbn [store].
    rewrite lookup_insert_ne; [exact Hl1 |].
    apply fresh_not_allocated. eauto. }
  assert (Htrace2 : trace st2 = trace st) by reflexivity.
  assert (Hmap2 : mapping_of st2 (Some l2) = Some ((λ _, LOCAL_) <$> ref_data)).
  { unfold mapping_of. cbn [mbind option_bind]. rewrite Hl2. reflexivity. }
  assert (Hmap1 : mapping_of st2 (Some l1) = Some ref_data).
  { unfold mapping_of. cbn [mbind option_bind]. rewrite Hl12. reflexivity. }
  clearbody st2. clearbody l2. clearbody st1. clearbody l1.
  edestruct (create_and_run_record_handler_calls sc sv) as (st' & Hcall & Htrace);
    [| | rewrite Hcall].
  - intros l [= <-]. eauto.
  - intros l [= <-]. eauto.
  - eexists _, st'. split; [reflexivity |].
    rewrite Htrace, Hmap1, Hmap2, Htrace2. reflexivity.
Qed.

(** X19: a command run under LOCAL uploads nothing, whatever input and
    reference data it is given and however it ends: none of its calls is
    an upload of an artifact. *)
Theorem local_commands_upload_nothing (sc : SessionContext) (sv : service)
    (output in_data model_path : option string) (st : state) :
  (∀ action params,
     ∃ calls,
       trace (records_command action params sc sv (value LOCAL) output
                in_data model_path st).2 = trace st ++ calls ∧
       Forall (λ e, is_upload e = false) calls) ∧
  (∀ ref_data action param,
     ∃ calls,
       trace (run sc sv (value LOCAL) output in_data model_path ref_data
                action param st).2 = trace st ++ calls ∧
       Forall (λ e, is_upload e = false) calls).
Proof.
  split.
  - intros action params.
    rewrite records_command_validated by apply andb_false_r.
    destruct (_validate_params sc (value LOCAL) output model_path in_data)
      as [e | []].
    { exists []. rewrite app_nil_r. split; [reflexivity | constructor]. }
    assert (Hds : ∃ ds, _configure_data_source sc sv in_data (value LOCAL) = ret ds).
    { destruct in_data; eauto. }
    destruct Hds as [ds ->]. rewrite bind_ret.
    destruct (create_and_run_record_handler_calls sc sv params (Some action)
                LOCAL output in_data model_path ds None None st)
      as (st' & -> & Htrace);
      [intros l Hl; discriminate Hl | intros l Hl; discriminate Hl |].
    eexists. split; [exact Htrace |].
    apply (calls_of_run_upload_nothing sc sv params (Some action) LOCAL output
             in_data model_path ds None None).
  - intros ref_data action param.
    destruct (_validate_params sc (value LOCAL) output model_path None)
      as [e | []] eqn:Hvalid.
    + exists []. rewrite app_nil_r. split; [| constructor].
      unfold run, _check_model_and_runner.
      rewrite eqb_value. decide_modes. rewrite andb_false_r.
      rewrite bind_ret, Hvalid. reflexivity.
    + destruct (run_local_calls sc sv output in_data model_path ref_data
                  action param st Hvalid)
        as (r & st' & -> & Htrace).
      eexists. split; [exact Htrace |].
      apply calls_of_run_upload_nothing.
Qed.

Lemma params_untouched (items : list (string * string)) :
  ∀ (d : gmap string param_value) (key : string),
    key ∉ items.*1 →
    foldl (λ d '(key, v), <[key := PStr v]> d) d items !! key = d !! key.
Proof.
  induction items as [| [k v] items IH]; intros d key Hkey; [reflexivity |].
  change (((k, v) :: items).*1) with (k :: items.*1) in Hkey.
  apply not_elem_of_cons in Hkey as [Hne Hkey].
  simpl. rewrite (IH _ _ Hkey). apply lookup_insert_ne. congruence.
Qed.

(** X22: what the generic run command submits under LOCAL once its flags
    are accepted: the sentinel as data source exactly when input data was
    given, the sentinel under every reference key, and as parameters
    nothing when no --param was given, else a dictionary in which each
    key holds the value of its last --param and no other key occurs. *)
Theorem run_submits_last_param (sc : SessionContext) (sv : service)
    (output in_data model_path : option string)
    (ref_data : gmap string string) (action : option string)
    (param : list (string * string)) (st : state)
    (Hvalid : _validate_params sc (value LOCAL) output model_path None = inr tt) :
  (∃ after,
     trace (run sc sv (value LOCAL) output in_data model_path ref_data
              action param st).2 =
       trace st
       ++ [LogInfo ("Creating record handler for model " +:+ model_id sc +:+ ".");
           CreateRecordHandlerObj;
           Submit (extra_params_of param) action LOCAL
             (if truthy in_data then Some LOCAL_ else None)
             ((λ _, LOCAL_) <$> ref_data)]
       ++ after) ∧
  (param = [] ↔ extra_params_of param = None) ∧
  (∀ before key v after,
     param = before ++ (key, v) :: after → key ∉ after.*1 →
     ∃ d, extra_params_of param = Some d ∧ d !! key = Some (PStr v)) ∧
  (∀ d key, extra_params_of param = Some d → key ∉ param.*1 → d !! key = None).
Proof.
  split; [| split; [| split]].
  - destruct (run_local_calls sc sv output in_data model_path ref_data action
                param st Hvalid) as (r & st' & -> & Htrace).
    eexists. cbn [snd]. rewrite Htrace.
    unfold calls_of_run, submission. cbn [default app]. reflexivity.
  - destruct param; split; intros H; try reflexivity; discriminate H.
  - intros before key v after -> Hkey.
    exists (foldl (λ d '(key, v), <[key := PStr v]> d) ∅
              (before ++ (key, v) :: after)).
    split; [destruct before; reflexivity |].
    rewrite foldl_app. simpl. rewrite (params_untouched _ _ _ Hkey).
    apply lookup_insert_eq.
  - intros d key Hd Hkey. destruct param as [| kv param]; [discriminate Hd |].
    injection Hd as <-.
    etrans; [exact (params_untouched (kv :: param) ∅ key Hkey) |].
    apply lookup_empty.
Qed.

Lemma run_submits_last_param_witness :
  ∃ d,
    extra_params_of [("seed", "1"); ("rows", "10"); ("seed", "7")] = Some d ∧
    d !! "seed" = Some (PStr "7").
Proof.
  destruct (run_submits_last_param local_only_model failing_job (Some "out")
              None (Some "model.tar.gz") ∅ None
              [("seed", "1"); ("rows", "10"); ("seed", "7")] initial eq_refl)
    as (_ & _ & Hlast & _).
  apply (Hlast [("seed", "1"); ("rows", "10")] "seed" "7" []); [reflexivity |].
  apply not_elem_of_nil.
Defined.

End RecordsProperties.

(** * Properties of the generated jobs API and of the exceptions *)
Section JobsApiProperties.
Import JobsApi.

Lemma keep_or_default_union (key : string) (dflt : pyvalue)
    (kwargs : gmap string pyvalue) :
  keep_or_default key dflt kwargs = kwargs ∪ {[ key := dflt ]}.
Proof.
  apply map_eq. intros k. unfold keep_or_default.
  rewrite lookup_union.
  destruct (decide (k = key)) as [-> | Hne].
  - rewrite lookup_insert_eq, lookup_singleton_eq.
    destruct (kwargs !! key); reflexivity.
  - rewrite lookup_insert_ne, lookup_singleton_ne by congruence.
    destruct (kwargs !! k); reflexivity.
Qed.

(** X20: [__receive_one] passes on the caller's keyword arguments with
    the seven defaults filled in where the caller gave none: what the
    caller gave, an explicit None included, is never replaced, no other
    key is added, and filling in twice changes nothing more. *)
Theorem receive_one_fills_defaults (kwargs : gmap string pyvalue) :
  __receive_one kwargs = kwargs ∪ receive_one_defaults ∧
  (∀ key v, kwargs !! key = Some v → __receive_one kwargs !! key = Some v) ∧
  (∀ key, kwargs !! key = None →
     __receive_one kwargs !! key = receive_one_defaults !! key) ∧
  dom (__receive_one kwargs) = dom kwargs ∪ dom receive_one_defaults ∧
  __receive_one (__receive_one kwargs) = __receive_one kwargs.
Proof.
  assert (Hunion : ∀ m, __receive_one m = m ∪ receive_one_defaults).
  { intros m. unfold __receive_one, receive_one_defaults.
    rewrite !keep_or_default_union, <- !(assoc_L (∪)). reflexivity. }
  split; [apply Hunion |].
  split; [| split; [| split]].
  - intros key v Hkey. rewrite Hunion.
    apply lookup_union_Some_l. exact Hkey.
  - intros key Hkey. rewrite Hunion.
    apply lookup_union_r. exact Hkey.
  - rewrite Hunion. apply dom_union_L.
  - rewrite !Hunion, <- (assoc_L (∪)), (idemp_L (∪)). reflexivity.
Qed.

End JobsApiProperties.

Section ExceptionsProperties.
Import Exceptions.

Lemma append_length (s1 s2 : string) :
  String.length (s1 +:+ s2) = String.length s1 + String.length s2.
Proof.
  induction s1 as [| a s1 IH]; [reflexivity |].
  change (S (String.length (s1 +:+ s2)) = S (String.length s1) + String.length s2).
  rewrite IH. reflexivity.
Qed.

Lemma append_inv_tail (s1 s2 t : string) : s1 +:+ t = s2 +:+ t → s1 = s2.
Proof.
  revert s2. induction s1 as [| a s1 IH]; intros [| b s2] H.
  - reflexivity.
  - apply (f_equal String.length) in H.
    change (String.length t = S (String.length (s2 +:+ t))) in H.
    rewrite append_length in H. lia.
  - apply (f_equal String.length) in H.
    change (S (String.length (s1 +:+ t)) = String.length t) in H.
    rewrite append_length in H. lia.
  - change (String a (s1 +:+ t) = String b (s2 +:+ t)) in H.
    injection H as -> H. f_equal. apply IH. exact H.
Qed.

(** X21: the context of a job-not-found error always gives the project
    id under project_id; it gives the job's id under the key made of the
    job type and _id as a second entry, except for a job type project,
    whose key is project_id itself: then the project id is the only
    entry and the job's id is not in the context. *)
Theorem job_not_found_context (job : Job) :
  GretelJobNotFound_context job !! "project_id" = Some (Some (project_id job)) ∧
  (job_type job ≠ "project" →
     GretelJobNotFound_context job !! (job_type job +:+ "_id") = Some (id job) ∧
     size (GretelJobNotFound_context job) = 2) ∧
  (job_type job = "project" →
     GretelJobNotFound_context job = {[ "project_id" := Some (project_id job) ]}) ∧
  dom (GretelJobNotFound_context job) = {[ "project_id"; job_type job +:+ "_id" ]}.
Proof.
  unfold GretelJobNotFound_context.
  split; [apply lookup_insert_eq |].
  split; [| split].
  - intros Htype.
    assert (Hkey : "project_id" ≠ job_type job +:+ "_id").
    { intros Hsame. apply Htype.
      apply (append_inv_tail _ _ "_id"). symmetry. exact Hsame. }
    split.
    + rewrite lookup_insert_ne by exact Hkey. apply lookup_insert_eq.
    + rewrite map_size_insert_None
        by (rewrite lookup_insert_ne, lookup_empty by congruence; reflexivity).
      rewrite map_size_insert_None by apply lookup_empty.
      rewrite map_size_empty. reflexivity.
  - intros ->. simpl. rewrite insert_insert_eq. reflexivity.
  - rewrite !dom_insert_L, dom_empty_L, union_empty_r_L. reflexivity.
Qed.

End ExceptionsProperties.
